(** * cs1000: the Minolta CS-1000 serial driver (src/cs1000.py)

    A shallow embedding of the [CS1000] class: the object's three
    attributes ([results], [com], [remote]) together with the serial
    line it talks to form the state; every method is a computation in a
    state-and-exception monad in which a raised exception keeps the
    state reached so far, as a Python object keeps the mutations made
    before the raise, and in which a read that waits for ever on a silent
    line is an outcome of its own. *)

From stdpp Require Import gmap strings list fin_maps.
From Stdlib Require Import Ascii.
Local Open Scope string_scope.
Local Open Scope Z_scope.
Local Open Scope list_scope.

(** ** Text: the pieces of [str] the driver uses *)

(** Characters stand for code points below 256; the device speaks ASCII.
    [is_space] is the whitespace test of [str.strip()] on that range. *)
Definition is_space (c : ascii) : bool :=
  let n := N_of_ascii c in
  (((9 <=? n) && (n <=? 13)) || ((28 <=? n) && (n <=? 32))
   || (n =? 133) || (n =? 160))%N.

Fixpoint lstrip (s : string) : string :=
  match s with
  | EmptyString => EmptyString
  | String c s' => if is_space c then lstrip s' else s
  end.

Fixpoint rstrip (s : string) : string :=
  match s with
  | EmptyString => EmptyString
  | String c s' =>
      match rstrip s' with
      | EmptyString => if is_space c then EmptyString else String c EmptyString
      | r => String c r
      end
  end.

(** [a.strip()] *)
Definition strip (s : string) : string := rstrip (lstrip s).

(** [ans.split(sep)] for a one-character separator: never the empty list. *)
Fixpoint split (sep : ascii) (s : string) : list string :=
  match s with
  | EmptyString => [EmptyString]
  | String c s' =>
      if Ascii.eqb c sep then EmptyString :: split sep s'
      else match split sep s' with
           | [] => [String c EmptyString]
           | tok :: toks => String c tok :: toks
           end
  end.

(** Whitespace only. *)
Fixpoint all_space (s : string) : bool :=
  match s with
  | EmptyString => true
  | String c s' => is_space c && all_space s'
  end.

(** The last character, if any. *)
Fixpoint last_char (s : string) : option ascii :=
  match s with
  | EmptyString => None
  | String c EmptyString => Some c
  | String _ s' => last_char s'
  end.

(** [c in s] *)
Fixpoint has_char (c : ascii) (s : string) : bool :=
  match s with
  | EmptyString => false
  | String c' s' => Ascii.eqb c' c || has_char c s'
  end.

Definition comma : ascii := ascii_of_nat 44.

(** The data line of the worked example. *)
Definition example_data : string :=
  "12.3,45.6,1.1,2.2,3.3,0.33,0.34,0.1,0.2,6500".
Definition LF : string := String (ascii_of_nat 10) EmptyString.

(** ** Exceptions *)

Inductive exn : Type :=
  | AttributeError      (* [self.com] is [None]: no [write]/[readline] attribute *)
  | SerialException     (* pyserial: port not open, or the I/O itself failed *)
  | ValueError          (* [float()] of a malformed token; a negative baud rate *)
  | IndexError          (* [ans[i]] beyond the fields of the reply *)
  | OverflowError.      (* pyserial: a baud rate beyond a C [int] *)

Definition TransportError (e : exn) : bool :=
  match e with AttributeError | SerialException => true | _ => false end.


(** ** The serial line *)

(** [self.com] is [None], a [serial.Serial(port, baudrate=...)] that was
    opened, or the unopened [serial.Serial()] left by [set_remote(False)]. *)
Inductive handle : Type :=
  | Opened (port : string) (baud_rate : Z)
  | Unopened.

Inductive event : Type :=
  | EvWrite (data : string)
  | EvRead.

(** One completed transfer, with the value [self.remote] had when it
    was made. *)
Record entry : Type := Entry { ev : event; remote_at : bool }.

(** Python's floating-point numbers [F] and the builtin [float(str)];
    [None] is the [ValueError] of a string that is not a number. *)
Class PyFloat (F : Type) : Type := float : string -> option F.

Section Driver.

Context {F : Type} `{PyFloat F}.

(** What a key of the result [dict] can hold. A row of the spectrum
    array is (wavelength, intensity); the wavelength column is the
    integer [380 + i] that numpy stores as a float. *)
Inductive value : Type :=
  | VFloat (x : F)
  | VStr (s : string)
  | VSpectrum (rows : list (Z * F)).

(** The line is given by what it will do. Once [tx] has run out the
    link is down and a write fails; once [rx] has run out the device
    stays silent, and a read, on a port opened without a timeout, waits
    for ever. *)
Record state : Type := State {
  (* the object *)
  results : gmap string value;
  com : option handle;
  remote : bool;
  (* the line *)
  wire : list entry;          (* transfers completed so far, oldest first *)
  rx : list (option string);  (* what the next readline calls meet: a line
                                 with its terminator, or a failure *)
  tx : list bool;             (* whether the next writes go through *)
  ports : list string         (* the ports that can be opened *)
}.

Definition set_results (r : gmap string value) (s : state) : state :=
  State r (com s) (remote s) (wire s) (rx s) (tx s) (ports s).
Definition set_com (c : option handle) (s : state) : state :=
  State (results s) c (remote s) (wire s) (rx s) (tx s) (ports s).
Definition set_remote_flag (b : bool) (s : state) : state :=
  State (results s) (com s) b (wire s) (rx s) (tx s) (ports s).
Definition set_rx (l : list (option string)) (s : state) : state :=
  State (results s) (com s) (remote s) (wire s) l (tx s) (ports s).
Definition set_tx (l : list bool) (s : state) : state :=
  State (results s) (com s) (remote s) (wire s) (rx s) l (ports s).
Definition log (e : event) (s : state) : state :=
  State (results s) (com s) (remote s)
        (wire s ++ [Entry e (remote s)]) (rx s) (tx s) (ports s).

(** ** The monad *)

(** A call returns, raises, or never comes back; each time with the
    state reached. *)
Inductive outcome (A : Type) : Type :=
  | Ret (a : A) (s : state)
  | Raise (e : exn) (s : state)
  | Hang (s : state).
Arguments Ret {A} a s.
Arguments Raise {A} e s.
Arguments Hang {A} s.

Definition M (A : Type) : Type := state -> outcome A.

Definition state_of {A} (o : outcome A) : state :=
  match o with Ret _ s | Raise _ s | Hang s => s end.

Definition returns {A} (o : outcome A) : bool :=
  match o with Ret _ _ => true | Raise _ _ | Hang _ => false end.

#[global] Instance M_ret : MRet M := fun A a s => Ret a s.
#[global] Instance M_bind : MBind M := fun A B k m s =>
  match m s with
  | Ret a s' => k a s'
  | Raise e s' => Raise e s'
  | Hang s' => Hang s'
  end.

Definition raise {A} (e : exn) : M A := fun s => Raise e s.
Definition get {A} (f : state -> A) : M A := fun s => Ret (f s) s.
Definition modify (f : state -> state) : M unit := fun s => Ret tt (f s).

(** ** Library calls *)

(** [self.com.write(data)] *)
Definition com_write (data : string) : M unit := fun s =>
  match com s with
  | None => Raise AttributeError s
  | Some Unopened => Raise SerialException s
  | Some (Opened _ _) =>
      match tx s with
      | [] => Raise SerialException s
      | false :: t => Raise SerialException (set_tx t s)
      | true :: t => Ret tt (log (EvWrite data) (set_tx t s))
      end
  end.

(** [self.com.readline().decode('utf-8')]: the replies are queued as the
    text they decode to, the device answering in ASCII. [connect] opens
    the port with pyserial's default [timeout=None], so [readline] waits
    until a line has come. *)
Definition com_readline : M string := fun s =>
  match com s with
  | None => Raise AttributeError s
  | Some Unopened => Raise SerialException s
  | Some (Opened _ _) =>
      match rx s with
      | [] => Hang s
      | None :: r => Raise SerialException (set_rx r s)
      | Some l :: r => Ret l (log EvRead (set_rx r s))
      end
  end.

(** [serial.Serial(port, baudrate=baud_rate)] for an [int] rate: the
    baud-rate setter rejects a negative rate before the port is touched;
    then the port is opened; then it is configured, where a rate that
    does not fit a C [int] overflows. *)
Definition Serial (port : string) (baud_rate : Z) : M handle := fun s =>
  if baud_rate <? 0 then Raise ValueError s
  else if bool_decide (port ∈ ports s) then
    if baud_rate <? 2 ^ 31 then Ret (Opened port baud_rate) s
    else Raise OverflowError s
  else Raise SerialException s.

(** [float(x)] *)
Definition py_float (x : string) : M F :=
  match float x with
  | Some v => mret v
  | None => raise ValueError
  end.

(** [ans[i]] *)
Definition getitem (ans : list string) (i : nat) : M string :=
  match ans !! i with
  | Some x => mret x
  | None => raise IndexError
  end.

(** [self.results[key] = v] *)
Definition results_setitem (key : string) (v : value) : M unit :=
  modify (fun s => set_results (<[key := v]> (results s)) s).

(** ** The class *)

(** [get_connected] *)
Definition get_connected : M bool :=
  get (fun s => negb (bool_decide (com s = None))).

(** [get_remote] *)
Definition get_remote : M bool := get remote.

(** [get_results] *)
Definition get_results : M (gmap string value) := get results.

(** [set_remote] *)
Definition set_remote (on : bool) : M unit :=
  r ← get remote;
  if on then
    if negb r then
      com_write ("RMT,1" +:+ LF);;
      ans ← com_readline;
      modify (set_remote_flag true)
    else mret tt
  else
    if r then
      com_write ("RMT,0" +:+ LF);;
      modify (set_remote_flag false);;
      modify (set_com (Some Unopened))
    else mret tt.

(** [connect] *)
Definition connect (port : string) (baud_rate : Z) : M unit :=
  r ← get remote;
  (if (r : bool) then set_remote false else mret tt);;
  h ← Serial port baud_rate;
  modify (set_com (Some h)).

(** [disconnect] *)
Definition disconnect : M unit :=
  r ← get remote;
  (if (r : bool) then set_remote false else mret tt);;
  modify (set_com None).

(** [self.results[key] = float(ans[i])] *)
Definition store_float (key : string) (ans : list string) (i : nat) : M unit :=
  x ← getitem ans i;
  v ← py_float x;
  results_setitem key (VFloat v).

(** [self.results[key] = ans[i]] *)
Definition store_raw (key : string) (ans : list string) (i : nat) : M unit :=
  x ← getitem ans i;
  results_setitem key (VStr x).

(** [for a in ans: spectrum.append(float(a.strip()))] *)
Fixpoint for_a_in (ans : list string) (spectrum : list F) : M (list F) :=
  match ans with
  | [] => mret spectrum
  | a :: ans' =>
      v ← py_float (strip a);
      for_a_in ans' (spectrum ++ [v])
  end.

(** The body of [for i in range(15)], run [n] times. *)
Fixpoint for_i_in_range (n : nat) (spectrum : list F) : M (list F) :=
  match n with
  | O => mret spectrum
  | S n' =>
      com_write ("&" +:+ LF);;
      ans ← com_readline;
      spectrum ← for_a_in (split comma ans) spectrum;
      for_i_in_range n' spectrum
  end.

(** [lambd = 380 + np.arange(len(spectrum))] *)
Definition lambd (spectrum : list F) : list Z :=
  (fun i => 380 + Z.of_nat i) <$> seq 0 (length spectrum).

(** [np.array([lambd, spectrum]).T] *)
Definition transpose (spectrum : list F) : list (Z * F) :=
  zip (lambd spectrum) spectrum.

(** [measure] *)
Definition measure : M unit :=
  r ← get remote;
  (if negb (r : bool) then set_remote true else mret tt);;

  com_write ("MES,1" +:+ LF);;
  ans ← com_readline;
  ans ← com_readline;

  com_write ("BDR,1,0,0" +:+ LF);;
  ans ← com_readline;

  com_write ("&" +:+ LF);;
  ans ← com_readline;
  let ans := split comma ans in
  store_float "Le2" ans 0;;
  store_float "Lv2" ans 1;;
  store_float "X2" ans 2;;
  store_float "Y2" ans 3;;
  store_float "Z2" ans 4;;
  store_float "x2" ans 5;;
  store_float "y2" ans 6;;
  store_float "u2" ans 7;;
  store_float "v2" ans 8;;
  store_raw "T2" ans 9;;
  store_raw "Duv2" ans 8;;

  com_write ("BDR,1,1,0" +:+ LF);;
  ans ← com_readline;

  com_write ("&" +:+ LF);;
  ans ← com_readline;
  let ans := split comma ans in
  store_float "Le10" ans 0;;
  store_float "Lv10" ans 1;;
  store_float "X10" ans 2;;
  store_float "Y10" ans 3;;
  store_float "Z10" ans 4;;
  store_float "x10" ans 5;;
  store_float "y10" ans 6;;
  store_float "u10" ans 7;;
  store_float "v10" ans 8;;
  store_raw "T10" ans 9;;
  store_raw "Duv10" ans 8;;

  com_write ("BDR,0,0,0" +:+ LF);;
  ans ← com_readline;
  spectrum ← for_i_in_range 15 [];
  results_setitem "spectrum" (VSpectrum (transpose spectrum)).

(** The attributes [__init__] starts from, on a given line. *)
Definition fresh (line : state) : state :=
  State ∅ None false (wire line) (rx line) (tx line) (ports line).

(** [CS1000(port, baud_rate)]: connects when [port] is truthy, a
    non-empty string. *)
Definition init (port : option string) (baud_rate : Z) : M unit := fun line =>
  match port with
  | Some (String c p) => connect (String c p) baud_rate (fresh line)
  | _ => Ret tt (fresh line)
  end.

(** ** Histories of calls *)

Inductive call : Type :=
  | Connect (port : string) (baud_rate : Z)
  | Disconnect
  | GetConnected
  | GetRemote
  | SetRemote (on : bool)
  | Measure
  | GetResults.

Definition run (c : call) : M unit :=
  match c with
  | Connect port baud_rate => connect port baud_rate
  | Disconnect => disconnect
  | GetConnected => get_connected;; mret tt
  | GetRemote => get_remote;; mret tt
  | SetRemote on => set_remote on
  | Measure => measure
  | GetResults => get_results;; mret tt
  end.

(** The states a driver can be in: created on a line on which nothing has
    been transferred yet, then used through its methods, whether a call
    returns or raises (the state a call hangs in is counted too). *)
Inductive reachable : state -> Prop :=
  | reachable_init port baud_rate line s :
      wire line = [] -> init port baud_rate line = Ret tt s -> reachable s
  | reachable_call c s :
      reachable s -> reachable (state_of (run c s)).

(** ** Vocabulary of the statements *)

Definition connected (s : state) : bool := negb (bool_decide (com s = None)).

(** The data of the writes of a piece of history. *)
Definition writes (h : list entry) : list string :=
  omap (fun e => match ev e with EvWrite d => Some d | EvRead => None end) h.

(** One command line followed by the reading of [n] reply lines. *)
Definition exchange (cmd : string) (n : nat) : list event :=
  EvWrite (cmd +:+ LF) :: replicate n EvRead.

Definition measurement_protocol : list event :=
  exchange "MES,1" 2 ++ exchange "BDR,1,0,0" 1 ++ exchange "&" 1
  ++ exchange "BDR,1,1,0" 1 ++ exchange "&" 1
  ++ exchange "BDR,0,0,0" 1 ++ mjoin (replicate 15 (exchange "&" 1)).

Definition remote_protocol (remote_on : bool) : list event :=
  if remote_on then [] else exchange "RMT,1" 1.

(** What a complete [measure()] transfers, from a state whose remote flag
    is [remote_on]. *)
Definition protocol (remote_on : bool) : list event :=
  remote_protocol remote_on ++ measurement_protocol.

(** The same with the remote flag each transfer is made under. *)
Definition script (remote_on : bool) : list entry :=
  ((fun e => Entry e false) <$> remote_protocol remote_on)
  ++ ((fun e => Entry e true) <$> measurement_protocol).

Definition measurement_command (d : string) : bool :=
  bool_decide (d ∈ ["MES,1" +:+ LF; "BDR,1,0,0" +:+ LF; "BDR,1,1,0" +:+ LF;
                    "BDR,0,0,0" +:+ LF; "&" +:+ LF]).

(** A measurement command is on the wire only under a true remote flag. *)
Definition under_remote (e : entry) : Prop :=
  match ev e with
  | EvWrite d => measurement_command d = true -> remote_at e = true
  | EvRead => True
  end.

(** [h'] is [h] followed by transfers that all satisfy [P]. *)
Definition extends (h h' : list entry) (P : entry -> Prop) : Prop :=
  exists new, h' = h ++ new /\ Forall P new.

(** The reply lines a call reads to turn the remote flag on. *)
Definition acks (remote_on : bool) : nat := if remote_on then 0%nat else 1%nat.

Definition scalar_names : list (string * nat) :=
  [("Le", 0); ("Lv", 1); ("X", 2); ("Y", 3); ("Z", 4);
   ("x", 5); ("y", 6); ("u", 7); ("v", 8)]%nat.

(** The keys in the order [measure] assigns them. *)
Definition scalar_keys : list string :=
  ["Le2"; "Lv2"; "X2"; "Y2"; "Z2"; "x2"; "y2"; "u2"; "v2"; "T2"; "Duv2";
   "Le10"; "Lv10"; "X10"; "Y10"; "Z10"; "x10"; "y10"; "u10"; "v10"; "T10";
   "Duv10"].

Definition all_keys : list string := scalar_keys ++ ["spectrum"].

(** The fields [ans] of a data line as they sit in a result mapping [r]
    under the keys with suffix [sfx]. *)
Definition stored_block (sfx : string) (ans : list string)
    (r : gmap string value) : Prop :=
  (forall name i, (name, i) ∈ scalar_names ->
     exists tok v, ans !! i = Some tok /\ float tok = Some v
                   /\ r !! (name +:+ sfx) = Some (VFloat v))
  /\ (exists tok, ans !! 9%nat = Some tok /\ r !! ("T" +:+ sfx) = Some (VStr tok))
  /\ (exists tok, ans !! 8%nat = Some tok /\ r !! ("Duv" +:+ sfx) = Some (VStr tok)).

(** [float(a.strip())] over a list of tokens. *)
Definition intensities (toks : list string) : option (list F) :=
  mapM (fun a => float (strip a)) toks.

(** ** Program points of [measure]

    [at_point s0 j n b s]: started in [s0], the call has completed the
    first [j] transfers of its script and the first [n] assignments to
    scalar keys, and the remote flag is [b]. *)
Definition at_point (s0 : state) (j n : nat) (b : bool) (s : state) : Prop :=
  wire s = wire s0 ++ take j (script (remote s0))
  /\ remote s = b /\ com s = com s0 /\ ports s = ports s0
  /\ exists new : gmap string value,
       dom new = list_to_set (take n scalar_keys)
       /\ results s = new ∪ results s0.

(** The transfers a call has completed before its first assignment. *)
Definition first_store (remote_on : bool) : nat :=
  length (remote_protocol remote_on) + 7.

(** Where a call can be when it does not return. *)
Definition interrupted (s0 s : state) : Prop :=
  exists j n b, at_point s0 j n b s /\ (n = 0%nat \/ first_store (remote s0) <= j)%nat.

(** Where a call is when it returns. *)
Definition completed (s0 s : state) : Prop :=
  wire s = wire s0 ++ script (remote s0)
  /\ remote s = true /\ com s = com s0 /\ ports s = ports s0
  /\ exists new : gmap string value,
       dom new = list_to_set all_keys /\ results s = new ∪ results s0.

(** The line is open, [ls] are the next replies on it and the next [n]
    writes go through. *)
Definition feeding (ls : list string) (n : nat) (s : state) : Prop :=
  (exists p b, com s = Some (Opened p b))
  /\ (exists rest, rx s = (Some <$> ls) ++ rest)
  /\ (exists rest, tx s = replicate n true ++ rest).

(** A data line with ten fields of which the first nine are numbers. *)
Definition well_formed_data (ans : list string) : Prop :=
  (forall i, (i < 9)%nat ->
     exists tok v, ans !! i = Some tok /\ float tok = Some v)
  /\ is_Some (ans !! 9%nat).

(** The postcondition of an exception that cannot be raised. *)
Definition never : state -> Prop := fun _ => False.

(** Partial correctness with one postcondition for every way of not
    returning. *)
Definition triple {A} (P : state -> Prop) (m : M A)
    (Q : A -> state -> Prop) (E : state -> Prop) : Prop :=
  forall s, P s ->
    match m s with
    | Ret a s' => Q a s'
    | Raise _ s' | Hang s' => E s'
    end.

(** ** Vocabulary of the further properties *)

(** The exception a write meets when no port is open. *)
Definition no_port (s : state) : option exn :=
  match com s with
  | None => Some AttributeError
  | Some Unopened => Some SerialException
  | Some (Opened _ _) => None
  end.

(** The remote flag is on only over an opened port. *)
Definition remote_has_port (s : state) : Prop :=
  remote s = true -> exists p b, com s = Some (Opened p b).

(** A computation that runs the same whatever results are stored and
    lays what it stores over them. *)
Definition results_blind {A} (m : M A) : Prop :=
  forall s a s', m s = Ret a s' ->
    exists new : gmap string value,
      forall r, m (set_results r s) = Ret a (set_results (new ∪ r) s').

(** [m] keeps [I], and every exception it raises satisfies [E]. *)
Definition guarded {A} (I : state -> Prop) (E : exn -> Prop) (m : M A) : Prop :=
  forall s, I s ->
    match m s with
    | Ret _ s' | Hang s' => I s'
    | Raise e s' => I s' /\ E e
    end.

End Driver.

Arguments Ret {F A} a s.
Arguments Raise {F A} e s.
Arguments Hang {F A} s.
Arguments value F : clear implicits.
Arguments state F : clear implicits.
Arguments outcome F A : clear implicits.
Arguments M F A : clear implicits.

(** ** A stand-in for [float] on plain decimal notation

    Used to run the driver on concrete replies: optional sign, digits
    with at most one point, surrounding whitespace skipped as [float()]
    skips it; the value is kept exactly as mantissa and number of
    decimals. Exponents, [inf] and [nan] are outside it. *)
Module Sim.

Record dec : Type := Dec { mant : Z; places : nat }.

Definition digit (c : ascii) : option Z :=
  let n := N_of_ascii c in
  if ((48 <=? n) && (n <=? 57))%N then Some (Z.of_N (n - 48)) else None.

Fixpoint scan (s : string) (dot : bool) (nd : nat) (m : Z) (p : nat) : option dec :=
  match s with
  | EmptyString => if (0 <? nd)%nat then Some (Dec m p) else None
  | String c s' =>
      if Ascii.eqb c "."%char then
        if dot then None else scan s' true nd m p
      else
        match digit c with
        | Some d => scan s' dot (S nd) (10 * m + d) (if dot then S p else p)
        | None => None
        end
  end.

Definition float (s : string) : option dec :=
  match strip s with
  | String c r =>
      if Ascii.eqb c "-"%char then
        (fun d => Dec (- mant d) (places d)) <$> scan r false 0 0 0
      else if Ascii.eqb c "+"%char then scan r false 0 0 0
      else scan (String c r) false 0 0 0
  | EmptyString => None
  end.

#[global] Instance dec_float : PyFloat dec := float.

(** A line with the given replies queued and the given outcomes of the
    writes to come, and the driver freshly connected to it. *)
Definition line_of (replies : list string) (writes_ok : list bool) : state dec :=
  State ∅ None false [] (Some <$> replies) writes_ok ["COM1"].

Definition driver_on (replies : list string) (writes_ok : list bool) : state dec :=
  state_of (init (Some "COM1") 19200 (line_of replies writes_ok)).

Definition ok : string := "OK00" +:+ LF.
Definition data10 : string :=
  "10.5,40.0,1.0,2.0,3.0,0.30,0.31,0.15,0.25,5000" +:+ LF.
Definition sweep : string := "0.0,0.1,0.2,0.3,0.4,0.5,0.6,0.7,0.8,0.9" +:+ LF.

(** The replies of one complete measurement, remote control included. *)
Definition replies : list string :=
  [ok; ok; ok; ok; example_data; ok; data10; ok] ++ replicate 15 sweep.

Definition connected_driver : state dec := driver_on replies (replicate 64 true).
Definition measured : state dec := state_of (run Measure connected_driver).
Definition disconnected : state dec := state_of (disconnect measured).

(** Remote control switched on, then off again. *)
Definition remote_on : state dec := state_of (set_remote true connected_driver).
Definition remote_off : state dec := state_of (set_remote false remote_on).

(** The link goes down at the fifth write, [BDR,1,1,0]. *)
Definition cut_driver : state dec :=
  driver_on replies (replicate 4 true ++ [false]).

Definition cut_state : state dec := state_of (measure cut_driver).



(** Remote control is on and the next write fails. *)
Definition remote_driver : state dec :=
  state_of (set_remote true (driver_on [ok] [true; false])).
Definition failed_disconnect : state dec := state_of (disconnect remote_driver).

(** No reply ever comes. *)
Definition silent_driver : state dec := driver_on [] [true; true].

(** The first read fails; the next one meets a reply. *)
Definition lossy_driver : state dec :=
  state_of (init (Some "COM1") 19200
              (State ∅ None false [] [None; Some ok] [true; true] ["COM1"])).

(** A [float] that takes digits and a point only, with no whitespace
    around them. *)
Definition strict : PyFloat dec := fun s => scan s false 0 0 0.

(** Connected again while remote control was on. *)
Definition reconnected : state dec := state_of (connect "COM1" 19200 remote_on).

(** The replies of two measurements. *)
Definition twice_driver : state dec :=
  driver_on (replies ++ drop 1 replies) (replicate 64 true).

End Sim.

(** * Properties *)

(** ** Text *)

Lemma split_nonempty sep s : split sep s <> [].
Proof.
  destruct s as [|c s]; simpl; [done|].
  destruct (Ascii.eqb c sep); [done|]. by destruct (split sep s).
Qed.

Lemma rstrip_all_space ws : all_space ws = true -> rstrip ws = EmptyString.
Proof.
  induction ws as [|c ws IH]; simpl; [done|].
  intros [Hc Hws]%andb_prop. by rewrite IH, Hc.
Qed.

Lemma rstrip_app_space s ws :
  all_space ws = true -> rstrip (s +:+ ws) = rstrip s.
Proof.
  intros Hws. induction s as [|c s IH]; simpl.
  - by apply rstrip_all_space.
  - by rewrite IH.
Qed.

Lemma lstrip_app_space s ws :
  all_space ws = true ->
  lstrip (s +:+ ws) = lstrip s +:+ ws \/ (lstrip (s +:+ ws) = EmptyString /\ lstrip s = EmptyString).
Proof.
  intros Hws. induction s as [|c s IH]; simpl.
  - right. split; [|done]. clear -Hws.
    induction ws as [|c ws IH]; simpl in *; [done|].
    apply andb_prop in Hws as [-> Hws]. by apply IH.
  - destruct (is_space c); [done|]. by left.
Qed.

Lemma strip_app_space s ws : all_space ws = true -> strip (s +:+ ws) = strip s.
Proof.
  intros Hws. unfold strip.
  destruct (lstrip_app_space s ws Hws) as [-> | [-> ->]]; [|done].
  by apply rstrip_app_space.
Qed.

Lemma split_all_space ws : all_space ws = true -> split comma ws = [ws].
Proof.
  induction ws as [|c ws IH]; simpl; [done|].
  intros [Hc Hws]%andb_prop. rewrite (IH Hws).
  by destruct (Ascii.eqb_spec c comma) as [->|_].
Qed.

(** Whitespace after a line lands on its last token. *)
Lemma split_app_space s ws :
  all_space ws = true ->
  exists toks tok,
    split comma s = toks ++ [tok] /\ split comma (s +:+ ws) = toks ++ [tok +:+ ws].
Proof.
  intros Hws. induction s as [|c s (toks & tok & E1 & E2)]; simpl.
  - exists [], EmptyString. split; [done|]. by apply split_all_space.
  - rewrite E1, E2. destruct (Ascii.eqb c comma).
    + by exists (EmptyString :: toks), tok.
    + destruct toks as [|t toks]; simpl.
      * by exists [], (String c tok).
      * by exists (String c t :: toks), tok.
Qed.

Section Facts.

Context {F : Type} `{PyFloat F}.
Implicit Types (s : state F) (e : exn).

(** ** The triples of the monad *)

Lemma triple_bind {A B} (P : state F -> Prop) (m : M F A) (k : A -> M F B) Q R E :
  triple P m Q E -> (forall a, triple (Q a) (k a) R E) -> triple P (m ≫= k) R E.
Proof.
  intros Hm Hk s HP. unfold mbind, M_bind.
  specialize (Hm s HP). destruct (m s) as [a s'|e s'|s']; [by apply Hk|done..].
Qed.

Lemma triple_ret {A} (P : state F -> Prop) (a : A) (Q : A -> state F -> Prop) E :
  (forall s, P s -> Q a s) -> triple P (mret a) Q E.
Proof. intros HPQ s HP. by apply HPQ. Qed.

Lemma triple_get {A B} (P : state F -> Prop) (f : state F -> A) (x : A)
    (k : A -> M F B) R E :
  (forall s, P s -> f s = x) -> triple P (k x) R E -> triple P (get f ≫= k) R E.
Proof.
  intros Hf Hk s HP. unfold mbind, M_bind, get. rewrite (Hf s HP). by apply Hk.
Qed.

Lemma triple_ret_bind {A B} (P : state F -> Prop) (a : A) (k : A -> M F B) R E :
  triple P (k a) R E -> triple P (mret a ≫= k) R E.
Proof. intros Hk s HP. by apply Hk. Qed.

Lemma triple_pre {A} (P P' : state F -> Prop) (m : M F A) Q E :
  (forall s, P s -> P' s) -> triple P' m Q E -> triple P m Q E.
Proof. intros HP Hm s Hs. by apply Hm, HP. Qed.

(** ** The steps of [measure] between program points *)

Section Points.

Variable s0 : state F.

Lemma at_point_start : at_point s0 0 0 (remote s0) s0.
Proof.
  repeat split; [by rewrite take_0, app_nil_r|].
  exists ∅. split; [done|]. by rewrite (left_id_L ∅ (∪)).
Qed.

Lemma at_point_interrupted j n b s :
  (n = 0 \/ first_store (remote s0) <= j)%nat ->
  at_point s0 j n b s -> interrupted s0 s.
Proof. intros Hn Hs. by exists j, n, b. Qed.

Lemma triple_write j n b d :
  script (remote s0) !! j = Some (Entry (EvWrite d) b) ->
  (n = 0 \/ first_store (remote s0) <= j)%nat ->
  triple (at_point s0 j n b) (com_write d)
         (fun _ => at_point s0 (S j) n b) (interrupted s0).
Proof.
  intros Hj Hn s Hs. unfold com_write.
  destruct (com s) as [[p r|]|] eqn:Hc; [|by eapply at_point_interrupted..].
  destruct Hs as (Hw & Hb & Hcom & Hp & Hr).
  destruct (tx s) as [|[] t];
    [by eapply at_point_interrupted| |by eapply at_point_interrupted].
  repeat split; simpl; try done.
  by rewrite Hw, Hb, (take_S_r _ _ _ Hj), app_assoc.
Qed.

Lemma triple_readline j n b :
  script (remote s0) !! j = Some (Entry EvRead b) ->
  (n = 0 \/ first_store (remote s0) <= j)%nat ->
  triple (at_point s0 j n b) com_readline
         (fun _ => at_point s0 (S j) n b) (interrupted s0).
Proof.
  intros Hj Hn s Hs. unfold com_readline.
  destruct (com s) as [[p r|]|] eqn:Hc; [|by eapply at_point_interrupted..].
  destruct Hs as (Hw & Hb & Hcom & Hp & Hr).
  destruct (rx s) as [|[l|] t];
    [by eapply at_point_interrupted| |by eapply at_point_interrupted].
  repeat split; simpl; try done.
  by rewrite Hw, Hb, (take_S_r _ _ _ Hj), app_assoc.
Qed.

Lemma triple_set_flag j n b b' E :
  triple (at_point s0 j n b) (modify (set_remote_flag b'))
         (fun _ => at_point s0 j n b') E.
Proof. intros s (Hw & Hb & Hcom & Hp & Hr). by repeat split. Qed.

Lemma at_point_setitem j n b key v s :
  scalar_keys !! n = Some key ->
  at_point s0 j n b s ->
  at_point s0 j (S n) b (set_results (<[key := v]> (results s)) s).
Proof.
  intros Hk (Hw & Hb & Hcom & Hp & new & Hd & Hr).
  repeat split; try done.
  exists (<[key := v]> new). split.
  - rewrite dom_insert_L, Hd, (take_S_r _ _ _ Hk), list_to_set_app_L. simpl.
    rewrite (right_id_L ∅ (∪)). apply (comm_L (∪)).
  - by rewrite Hr, insert_union_l.
Qed.

Lemma triple_store_float j n b key ans i :
  scalar_keys !! n = Some key ->
  (first_store (remote s0) <= j)%nat ->
  triple (at_point s0 j n b) (store_float key ans i)
         (fun _ => at_point s0 j (S n) b) (interrupted s0).
Proof.
  intros Hk Hj s Hs. unfold store_float, getitem, py_float, mbind, M_bind.
  destruct (ans !! i) as [x|]; simpl; [|eapply at_point_interrupted; eauto].
  destruct (float x) as [v|]; simpl; [|eapply at_point_interrupted; eauto].
  by apply at_point_setitem.
Qed.

Lemma triple_store_raw j n b key ans i :
  scalar_keys !! n = Some key ->
  (first_store (remote s0) <= j)%nat ->
  triple (at_point s0 j n b) (store_raw key ans i)
         (fun _ => at_point s0 j (S n) b) (interrupted s0).
Proof.
  intros Hk Hj s Hs. unfold store_raw, getitem, mbind, M_bind.
  destruct (ans !! i) as [x|]; simpl; [|eapply at_point_interrupted; eauto].
  by apply at_point_setitem.
Qed.

Lemma triple_for_a_in j n b ans spectrum :
  (n = 0 \/ first_store (remote s0) <= j)%nat ->
  triple (at_point s0 j n b) (for_a_in ans spectrum)
         (fun _ => at_point s0 j n b) (interrupted s0).
Proof.
  intros Hn. revert spectrum.
  induction ans as [|a ans IH]; intros spectrum s Hs; simpl; [done|].
  unfold py_float, mbind, M_bind.
  destruct (float (strip a)) as [v|]; simpl; [by apply IH|].
  by eapply at_point_interrupted.
Qed.

Lemma triple_for_i_in_range k : forall j n spectrum,
  (forall i, (i < k)%nat ->
     script (remote s0) !! (j + 2 * i)%nat = Some (Entry (EvWrite ("&" +:+ LF)) true)
     /\ script (remote s0) !! (j + 2 * i + 1)%nat = Some (Entry EvRead true)) ->
  (n = 0 \/ first_store (remote s0) <= j)%nat ->
  triple (at_point s0 j n true) (for_i_in_range k spectrum)
         (fun _ => at_point s0 (j + 2 * k) n true) (interrupted s0).
Proof.
  induction k as [|k IH]; intros j n spectrum Hscript Hn.
  - apply triple_ret. intros s. by rewrite Nat.add_0_r.
  - replace (j + 2 * S k)%nat with (S (S j) + 2 * k)%nat by lia.
    cbn [for_i_in_range].
    destruct (Hscript 0%nat ltac:(lia)) as [Hw Hr].
    rewrite Nat.add_0_r in Hw. replace (j + 2 * 0 + 1)%nat with (S j) in Hr by lia.
    eapply triple_bind; [by apply triple_write|intros []].
    eapply triple_bind; [apply triple_readline; [done|lia]|intros ans].
    eapply triple_bind; [apply triple_for_a_in; lia|intros sp].
    apply IH; [|lia].
    intros i Hi. destruct (Hscript (S i) ltac:(lia)) as [Hw' Hr'].
    split; [rewrite <- Hw'|rewrite <- Hr']; f_equal; lia.
Qed.

Lemma triple_spectrum j v :
  take j (script (remote s0)) = script (remote s0) ->
  triple (at_point s0 j 22 true) (results_setitem "spectrum" v)
         (fun _ => completed s0) (interrupted s0).
Proof.
  intros Hj s (Hw & Hb & Hcom & Hp & new & Hd & Hr).
  repeat split; try done; [by simpl; rewrite Hw, Hj|].
  exists (<["spectrum" := v]> new). split.
  - rewrite dom_insert_L, Hd. unfold all_keys.
    rewrite list_to_set_app_L. cbn [list_to_set foldr].
    rewrite (right_id_L ∅ (∪) {[ "spectrum" ]}). apply (comm_L (∪)).
  - by rewrite Hr, insert_union_l.
Qed.

Lemma at_point_remote j n b s : at_point s0 j n b s -> remote s = b.
Proof. by intros (_ & Hb & _). Qed.

Ltac side Hr :=
  rewrite ?Hr;
  first [ reflexivity | left; reflexivity | right; cbv; lia | cbv; lia ].

Ltac step Hr :=
  eapply triple_bind;
  [ first [ apply triple_write | apply triple_readline
          | apply triple_store_float | apply triple_store_raw ]; side Hr
  | intros ?; cbv zeta ].

Lemma triple_set_remote_on :
  remote s0 = false ->
  triple (at_point s0 0 0 false) (set_remote true)
         (fun _ => at_point s0 2 0 true) (interrupted s0).
Proof.
  intros Hr. unfold set_remote.
  eapply triple_get; [apply at_point_remote|]. cbn [negb].
  do 2 step Hr. apply triple_set_flag.
Qed.

Lemma triple_measure :
  triple (eq s0) measure (fun _ => completed s0) (interrupted s0).
Proof.
  eapply triple_pre; [intros s <-; apply at_point_start|].
  unfold measure. eapply triple_get; [apply at_point_remote|].
  destruct (remote s0) eqn:Hr; cbn [negb].
  - apply triple_ret_bind.
    do 35 step Hr.
    eapply triple_bind.
    { apply (triple_for_i_in_range 15 13 22); [|side Hr].
      intros i Hi. rewrite Hr.
      do 15 (destruct i as [|i]; [split; reflexivity|]). lia. }
    intros spectrum. apply triple_spectrum. by rewrite Hr.
  - eapply triple_bind; [by apply triple_set_remote_on|intros []].
    do 35 step Hr.
    eapply triple_bind.
    { apply (triple_for_i_in_range 15 15 22); [|side Hr].
      intros i Hi. rewrite Hr.
      do 15 (destruct i as [|i]; [split; reflexivity|]). lia. }
    intros spectrum. apply triple_spectrum. by rewrite Hr.
Qed.

End Points.

(** ** What a returning step has done *)

Lemma bind_Ret {A B} (m : M F A) (k : A -> M F B) s b s' :
  (m ≫= k) s = Ret b s' -> exists a s1, m s = Ret a s1 /\ k a s1 = Ret b s'.
Proof.
  unfold mbind, M_bind. destruct (m s) as [a s1|e s1|s1]; [|done..]. by exists a, s1.
Qed.

Lemma com_write_Ret d s u s' :
  com_write d s = Ret u s' ->
  rx s = rx s' /\ results s' = results s /\ tx s = true :: tx s'.
Proof.
  unfold com_write. destruct (com s) as [[p r|]|]; [|done..].
  destruct (tx s) as [|[] t] eqn:Ht; [done| |done]. by intros [= _ <-].
Qed.

Lemma com_readline_Ret s l s' :
  com_readline s = Ret l s' ->
  rx s = Some l :: rx s' /\ results s' = results s /\ tx s = tx s'.
Proof.
  unfold com_readline. destruct (com s) as [[p r|]|]; [|done..].
  destruct (rx s) as [|[l'|] t] eqn:Ht; [done| |done]. by intros [= <- <-].
Qed.

Lemma store_float_Ret key ans i s u s' :
  store_float key ans i s = Ret u s' ->
  rx s = rx s' /\ tx s = tx s' /\
  exists tok v, ans !! i = Some tok /\ float tok = Some v
                /\ results s' = <[key := VFloat v]> (results s).
Proof.
  unfold store_float, getitem, py_float, mbind, M_bind.
  destruct (ans !! i) as [tok|]; [|done]. simpl.
  destruct (float tok) as [v|] eqn:Hv; [|done]. simpl.
  intros [= _ <-]. do 2 (split; [done|]). by exists tok, v.
Qed.

Lemma store_raw_Ret key ans i s u s' :
  store_raw key ans i s = Ret u s' ->
  rx s = rx s' /\ tx s = tx s' /\
  exists tok, ans !! i = Some tok /\ results s' = <[key := VStr tok]> (results s).
Proof.
  unfold store_raw, getitem, mbind, M_bind.
  destruct (ans !! i) as [tok|]; [|done]. simpl.
  intros [= _ <-]. do 2 (split; [done|]). by exists tok.
Qed.

Lemma intensities_app toks1 toks2 vs1 vs2 :
  intensities toks1 = Some vs1 -> intensities toks2 = Some vs2 ->
  intensities (toks1 ++ toks2) = Some (vs1 ++ vs2).
Proof.
  unfold intensities. rewrite !mapM_Some. apply Forall2_app.
Qed.

Lemma for_a_in_Ret ans : forall spectrum s vs s',
  for_a_in ans spectrum s = Ret vs s' ->
  s' = s /\ exists ws, intensities ans = Some ws /\ vs = spectrum ++ ws.
Proof.
  induction ans as [|a ans IH]; intros spectrum s vs s'; simpl.
  - intros [= <- <-]. split; [done|]. exists []. by rewrite app_nil_r.
  - unfold py_float, mbind at 1, M_bind at 1.
    destruct (float (strip a)) as [v|] eqn:Hv; [|done]. simpl.
    intros (-> & ws & Hws & ->)%IH. split; [done|].
    exists (v :: ws). split; [|by rewrite <- app_assoc].
    unfold intensities in *. by rewrite Hws.
Qed.

Lemma for_i_in_range_Ret n : forall spectrum s vs s',
  for_i_in_range n spectrum s = Ret vs s' ->
  exists ls ws,
    length ls = n /\ rx s = (Some <$> ls) ++ rx s'
    /\ tx s = replicate n true ++ tx s'
    /\ results s' = results s
    /\ intensities (mjoin (split comma <$> ls)) = Some ws
    /\ vs = spectrum ++ ws.
Proof.
  induction n as [|n IH]; intros spectrum s vs s'; cbn [for_i_in_range].
  - intros [= <- <-]. exists [], []. by rewrite app_nil_r.
  - intros (u & s1 & (Hrx1 & Hres1 & Htx1)%com_write_Ret & Hk)%bind_Ret.
    apply bind_Ret in Hk as (l & s2 & (Hrx2 & Hres2 & Htx2)%com_readline_Ret & Hk).
    apply bind_Ret in Hk as (sp & s3 & (-> & ws1 & Hws1 & ->)%for_a_in_Ret & Hk).
    apply IH in Hk as (ls & ws & Hlen & Hrx & Htx & Hres & Hws & ->).
    exists (l :: ls), (ws1 ++ ws). repeat split.
    + simpl. by rewrite Hlen.
    + by rewrite Hrx1, Hrx2, Hrx.
    + by rewrite Htx1, Htx2, Htx.
    + by rewrite Hres, Hres2, Hres1.
    + simpl. by apply intensities_app.
    + by rewrite app_assoc.
Qed.

Lemma set_remote_on_Ret s u s' :
  remote s = false -> set_remote true s = Ret u s' ->
  exists h, rx s = Some h :: rx s' /\ tx s = true :: tx s'
            /\ results s' = results s.
Proof.
  intros Hr. unfold set_remote, mbind at 1, M_bind at 1, get. rewrite Hr. cbn [negb].
  intros (? & s1 & (Hrx1 & Hres1 & Htx1)%com_write_Ret & Hk)%bind_Ret.
  apply bind_Ret in Hk as (h & s2 & (Hrx2 & Hres2 & Htx2)%com_readline_Ret & Hk).
  injection Hk as <- <-. exists h. simpl.
  by rewrite Hrx1, Hrx2, Htx1, Htx2, Hres2, Hres1.
Qed.

Ltac inv_bind H :=
  let Hm := fresh "Hm" in
  apply bind_Ret in H as (? & ? & Hm & H); cbv zeta in H;
  first [ apply com_write_Ret in Hm as (? & ? & ?)
        | apply com_readline_Ret in Hm as (? & ? & ?)
        | apply store_float_Ret in Hm as (? & ? & ? & ? & ? & ? & ?)
        | apply store_raw_Ret in Hm as (? & ? & ? & ? & ?) ].

Ltac chase proj :=
  repeat match goal with
         | Heq : proj _ = _ |- _ => rewrite Heq; clear Heq
         end.

Ltac solve_lookup :=
  cbn [String.append];
  repeat (rewrite lookup_insert_ne by done); apply lookup_insert_eq.

Ltac solve_stored :=
  split;
  [ intros name i Hin; unfold scalar_names in Hin;
    rewrite !elem_of_cons, elem_of_nil in Hin;
    destruct_or!; try done; simplify_eq;
    eexists _, _; (split; [eassumption|split; [eassumption|solve_lookup]])
  | split; eexists; (split; [eassumption|solve_lookup]) ].

(** The replies a returning [measure] has consumed and what it has
    stored from them. *)
Lemma measure_Ret s s' :
  measure s = Ret tt s' ->
  exists hs a1 a2 b1 l2 b2 l10 b3 ls vs,
    rx s = (Some <$> hs ++ [a1; a2; b1; l2; b2; l10; b3] ++ ls) ++ rx s'
    /\ length hs = acks (remote s) /\ length ls = 15%nat
    /\ tx s = replicate (acks (remote s) + 21) true ++ tx s'
    /\ stored_block "2" (split comma l2) (results s')
    /\ stored_block "10" (split comma l10) (results s')
    /\ intensities (mjoin (split comma <$> ls)) = Some vs
    /\ results s' !! "spectrum" = Some (VSpectrum (transpose vs)).
Proof.
  unfold measure, mbind at 1, M_bind at 1, get. intros Hm.
  destruct (remote s) eqn:Hr; cbn [negb] in Hm.
  - apply bind_Ret in Hm as (? & ? & [= _ <-] & Hm).
    do 35 inv_bind Hm.
    apply bind_Ret in Hm as (sp & s1 & Hloop & Hm).
    apply for_i_in_range_Ret in Hloop as (ls & vs & Hlen & ? & ? & ? & Hvs & ->).
    injection Hm as <-. cbn [results rx tx set_results].
    chase (@rx F). chase (@tx F). chase (@results F). simplify_eq.
    eexists [], _, _, _, _, _, _, _, ls, vs.
    split; [reflexivity|]. do 3 (split; [done|]).
    split; [solve_stored|]. split; [solve_stored|]. split; [done|].
    apply lookup_insert_eq.
  - apply bind_Ret in Hm as (? & ? & (h & ? & ? & ?)%set_remote_on_Ret & Hm); [|done].
    do 35 inv_bind Hm.
    apply bind_Ret in Hm as (sp & s1 & Hloop & Hm).
    apply for_i_in_range_Ret in Hloop as (ls & vs & Hlen & ? & ? & ? & Hvs & ->).
    injection Hm as <-. cbn [results rx tx set_results].
    chase (@rx F). chase (@tx F). chase (@results F). simplify_eq.
    eexists [h], _, _, _, _, _, _, _, ls, vs.
    split; [reflexivity|]. do 3 (split; [done|]).
    split; [solve_stored|]. split; [solve_stored|]. split; [done|].
    apply lookup_insert_eq.
Qed.

(** ** [measure] returns when the line feeds it well-formed replies *)

Lemma fed_write ls n d :
  triple (feeding ls (S n)) (com_write d) (fun _ => feeding ls n) (@never F).
Proof.
  intros s ((p & b & Hc) & (r & Hr) & (t & Ht)). unfold com_write.
  rewrite Hc, Ht. simpl. repeat split; eauto.
Qed.

Lemma fed_readline {B} l ls n (k : string -> M F B) R :
  triple (feeding ls n) (k l) R (@never F) ->
  triple (feeding (l :: ls) n) (com_readline ≫= k) R (@never F).
Proof.
  intros Hk s ((p & b & Hc) & (r & Hr) & (t & Ht)).
  unfold mbind, M_bind, com_readline. rewrite Hc, Hr. simpl.
  apply Hk. repeat split; eauto.
Qed.

Lemma fed_store_float ls n key ans i :
  (exists tok v, ans !! i = Some tok /\ float tok = Some v) ->
  triple (feeding ls n) (store_float key ans i) (fun _ => feeding ls n) (@never F).
Proof.
  intros (tok & v & Htok & Hv) s Hs.
  unfold store_float, getitem, py_float, mbind, M_bind.
  rewrite Htok. simpl. rewrite Hv. simpl. done.
Qed.

Lemma fed_store_raw ls n key ans i :
  is_Some (ans !! i) ->
  triple (feeding ls n) (store_raw key ans i) (fun _ => feeding ls n) (@never F).
Proof.
  intros [tok Htok] s Hs. unfold store_raw, getitem, mbind, M_bind.
  rewrite Htok. simpl. done.
Qed.

Lemma fed_for_a_in ls n ans : forall spectrum,
  is_Some (intensities ans) ->
  triple (feeding ls n) (for_a_in ans spectrum) (fun _ => feeding ls n) (@never F).
Proof.
  induction ans as [|a ans IH]; intros spectrum [vs Hvs] s Hs; simpl; [done|].
  apply mapM_Some in Hvs. inversion Hvs as [|? v ? vs' Hv Hvs']; subst.
  unfold py_float, mbind, M_bind. rewrite Hv. simpl.
  apply IH; [|done]. exists vs'. by apply mapM_Some.
Qed.

Lemma fed_for_i_in_range ls : forall ls' n spectrum,
  Forall (fun l => is_Some (intensities (split comma l))) ls ->
  triple (feeding (ls ++ ls') (length ls + n)) (for_i_in_range (length ls) spectrum)
         (fun _ => feeding ls' n) (@never F).
Proof.
  induction ls as [|l ls IH]; intros ls' n spectrum Hls.
  - by apply triple_ret.
  - apply Forall_cons in Hls as [Hl Hls]. cbn [length for_i_in_range app Nat.add].
    eapply triple_bind; [apply fed_write|intros []].
    apply fed_readline.
    eapply triple_bind; [by apply fed_for_a_in|intros sp].
    by apply IH.
Qed.

Lemma fed_set_flag ls n b :
  triple (feeding ls n) (modify (set_remote_flag b)) (fun _ => feeding ls n) (@never F).
Proof. by intros s Hs. Qed.

Ltac fed H2 H10 :=
  first
  [ eapply triple_bind; [apply fed_write|intros []]
  | apply fed_readline; cbv zeta
  | eapply triple_bind;
    [ first [ apply fed_store_float; first [apply H2|apply H10]; lia
            | apply fed_store_raw; assumption ]
    | intros [] ] ].

Lemma measure_returns s hs a1 a2 b1 l2 b2 l10 b3 ls :
  length hs = acks (remote s) -> length ls = 15%nat ->
  feeding (hs ++ [a1; a2; b1; l2; b2; l10; b3] ++ ls) (acks (remote s) + 21) s ->
  well_formed_data (split comma l2) ->
  well_formed_data (split comma l10) ->
  Forall (fun l => is_Some (intensities (split comma l))) ls ->
  returns (measure s) = true.
Proof.
  intros Hhs Hls Hfed [H2 H2'] [H10 H10'] Hsp.
  assert (Hraw2 : is_Some (split comma l2 !! 8%nat)).
  { destruct (H2 8%nat) as (tok & _ & -> & _); [lia|done]. }
  assert (Hraw10 : is_Some (split comma l10 !! 8%nat)).
  { destruct (H10 8%nat) as (tok & _ & -> & _); [lia|done]. }
  assert (Hloop : forall sp,
    triple (feeding ls 15) (for_i_in_range 15 sp) (fun _ => feeding [] 0) (@never F)).
  { intros sp. pose proof (fed_for_i_in_range ls [] 0 sp Hsp) as Ht.
    by rewrite app_nil_r, Nat.add_0_r, Hls in Ht. }
  assert (Htriple : triple (eq s) measure (fun _ _ => True) (@never F)).
  { unfold measure.
    destruct (remote s) eqn:Hr; cbn [acks] in *;
      (eapply triple_get; [by intros ? <-|]); cbn [negb].
    - destruct hs; [|done]. apply triple_ret_bind.
      eapply triple_pre; [intros ? <-; exact Hfed|].
      do 35 fed H2 H10.
      eapply triple_bind; [apply Hloop|intros sp].
      by intros ? _.
    - destruct hs as [|h [|]]; [done| |done].
      eapply triple_bind.
      { unfold set_remote. eapply triple_get; [by intros ? <-|]. cbn [negb].
        eapply triple_pre; [intros ? <-; exact Hfed|].
        do 2 fed H2 H10. apply fed_set_flag. }
      intros []. cbn [app].
      do 35 fed H2 H10.
      eapply triple_bind; [apply Hloop|intros sp].
      by intros ? _. }
  specialize (Htriple s eq_refl). by destruct (measure s).
Qed.

(** ** What the calls other than [measure] leave alone *)

Lemma extends_refl (h : list entry) P : extends h h P.
Proof. exists []. by rewrite app_nil_r. Qed.

Lemma extends_Forall (h h' : list entry) P :
  extends h h' P -> Forall P h -> Forall P h'.
Proof. intros (new & -> & Hn) Hh. by apply Forall_app. Qed.

Lemma under_remote_read b : under_remote (Entry EvRead b).
Proof. done. Qed.

Lemma under_remote_other d b :
  measurement_command d = false -> under_remote (Entry (EvWrite d) b).
Proof. unfold under_remote. simpl. by intros ->. Qed.

Lemma under_remote_true (x : event) : under_remote (Entry x true).
Proof. by destruct x. Qed.

Lemma set_remote_frame on s :
  let s' := state_of (set_remote on s) in
  results s' = results s /\ ports s' = ports s
  /\ (connected s = true -> connected s' = true)
  /\ (com s' = com s \/ (remote s' = false /\ com s' = Some Unopened))
  /\ (remote s' = true -> remote s = true \/ on = true)
  /\ extends (wire s) (wire s') under_remote.
Proof.
  unfold set_remote, com_write, com_readline, mbind, M_bind, get, modify.
  destruct on, (remote s) eqn:Hr, (com s) as [[p r|]|] eqn:Hc,
    (tx s) as [|[] t] eqn:Ht, (rx s) as [|[l|] q] eqn:Hx;
    repeat (progress (cbn -[under_remote]; rewrite ?Hc, ?Ht, ?Hx, ?Hr)).
  all: repeat split; try done; auto.

  all: first [ apply extends_refl
          | eexists; rewrite <- ?app_assoc; split; [reflexivity|];
            repeat first [ apply under_remote_read
                         | by apply under_remote_other
                         | apply Forall_nil_2 | apply Forall_cons_2 ] ].
Qed.

Lemma skip_or_set_remote_frame (r on : bool) s :
  let s' := state_of ((if r then set_remote on else mret tt) s) in
  results s' = results s /\ ports s' = ports s
  /\ (connected s = true -> connected s' = true)
  /\ extends (wire s) (wire s') under_remote.
Proof.
  destruct r; simpl.
  - destruct (set_remote_frame on s) as (? & ? & ? & _ & _ & ?). done.
  - repeat split; try done. apply extends_refl.
Qed.

Lemma connect_frame port baud_rate s :
  let s' := state_of (connect port baud_rate s) in
  results s' = results s /\ ports s' = ports s
  /\ (connected s = true -> connected s' = true)
  /\ extends (wire s) (wire s') under_remote.
Proof.
  unfold connect, mbind at 1, M_bind at 1, get.
  pose proof (skip_or_set_remote_frame (remote s) false s) as Hf.
  unfold mbind, M_bind. simpl in Hf.
  destruct ((if remote s then set_remote false else mret ()) s) as [[] s1|e s1|s1];
    simpl in *; [|done..].
  unfold Serial.
  destruct (baud_rate <? 0), (bool_decide (port ∈ ports s1)),
    (baud_rate <? 2 ^ 31); simpl; try done.
  destruct Hf as (? & ? & ? & ?). done.
Qed.

Lemma disconnect_frame s :
  let s' := state_of (disconnect s) in
  results s' = results s /\ ports s' = ports s
  /\ extends (wire s) (wire s') under_remote.
Proof.
  unfold disconnect, mbind at 1, M_bind at 1, get.
  pose proof (skip_or_set_remote_frame (remote s) false s) as Hf.
  unfold mbind, M_bind. simpl in Hf.
  destruct ((if remote s then set_remote false else mret ()) s) as [[] s1|e s1|s1];
    simpl in *; destruct Hf as (? & ? & ? & ?); done.
Qed.

Lemma measure_outcome s :
  match measure s with
  | Ret _ s' => completed s s'
  | Raise _ s' | Hang s' => interrupted s s'
  end.
Proof. by apply (triple_measure s). Qed.

Lemma script_under_remote b : Forall under_remote (script b).
Proof.
  destruct b;
    repeat first [ apply under_remote_true | apply under_remote_read
                 | by apply under_remote_other
                 | apply Forall_nil_2 | apply Forall_cons_2 ].
Qed.

Lemma script_protocol b : ev <$> script b = protocol b.
Proof. by destruct b. Qed.

Lemma take_scalar_keys n :
  list_to_set (C := gset string) (take n scalar_keys) ⊆ list_to_set all_keys.
Proof.
  intros k Hk. apply elem_of_list_to_set. apply elem_of_list_to_set in Hk.
  apply elem_of_take in Hk as (i & Hi & _).
  unfold all_keys. apply elem_of_app. left. by eapply list_elem_of_lookup_2.
Qed.

Lemma measure_frame s :
  let s' := state_of (measure s) in
  com s' = com s /\ ports s' = ports s
  /\ extends (wire s) (wire s') under_remote
  /\ dom (results s') ⊆ list_to_set all_keys ∪ dom (results s).
Proof.
  pose proof (measure_outcome s) as Hm.
  destruct (measure s) as [[] s'|e s'|s']; simpl.
  - destruct Hm as (Hw & _ & Hc & Hp & new & Hd & Hr).
    repeat split; try done.
    + eexists. split; [done|]. apply script_under_remote.
    + rewrite Hr, dom_union_L, Hd. done.
  - destruct Hm as (j & n & b & (Hw & _ & Hc & Hp & new & Hd & Hr) & _).
    repeat split; try done.
    + eexists. split; [done|]. apply Forall_take, script_under_remote.
    + rewrite Hr, dom_union_L, Hd. apply union_mono_r, take_scalar_keys.
  - destruct Hm as (j & n & b & (Hw & _ & Hc & Hp & new & Hd & Hr) & _).
    repeat split; try done.
    + eexists. split; [done|]. apply Forall_take, script_under_remote.
    + rewrite Hr, dom_union_L, Hd. apply union_mono_r, take_scalar_keys.
Qed.

(** What holds of every state a driver can be in. *)
Lemma reachable_invariant s :
  reachable s ->
  Forall under_remote (wire s) /\ dom (results s) ⊆ list_to_set all_keys.
Proof.
  induction 1 as [port baud_rate line s Hw Hi|c s Hs [IHw IHr]].
  - unfold init in Hi.
    assert (Hfresh : Forall under_remote (wire (fresh line))
                     /\ dom (results (fresh line)) ⊆ list_to_set (C := gset string) all_keys).
    { simpl. rewrite Hw, dom_empty_L. split; [constructor|]. apply empty_subseteq. }
    destruct port as [[|c p]|]; [by injection Hi as <-| |by injection Hi as <-].
    pose proof (connect_frame (String c p) baud_rate (fresh line)) as Hf.
    rewrite Hi in Hf. cbn [state_of] in Hf. destruct Hf as (Hr & _ & _ & He).
    destruct Hfresh as [Hfw Hfr]. split; [by eapply extends_Forall|by rewrite Hr].
  - destruct c; cbn [run].
    + destruct (connect_frame port baud_rate s) as (Hr & _ & _ & He).
      split; [by eapply extends_Forall|by rewrite Hr].
    + destruct (disconnect_frame s) as (Hr & _ & He).
      split; [by eapply extends_Forall|by rewrite Hr].
    + done.
    + done.
    + destruct (set_remote_frame on s) as (Hr & _ & _ & _ & _ & He).
      split; [by eapply extends_Forall|by rewrite Hr].
    + destruct (measure_frame s) as (_ & _ & He & Hr).
      split; [by eapply extends_Forall|].
      etrans; [done|]. by apply union_least.
    + done.
Qed.


(** ** The claims *)

(** C3. From every starting state, the transfers [measure] completes are,
    in order and with nothing interleaved: [RMT,1] and one reply when the
    remote flag was off, then [MES,1] (2 replies), [BDR,1,0,0] (1), [&]
    (1), [BDR,1,1,0] (1), [&] (1), [BDR,0,0,0] (1) and fifteen times [&]
    (1 reply each). A call that returns has made exactly these
    transfers; a call that does not return has made a prefix of them;
    and the call does return, having made them all, whenever the port is
    open, its writes go through and the line feeds it the replies of one
    measurement. *)
Theorem measure_protocol_order s :
  (exists new,
    wire (state_of (measure s)) = wire s ++ new
    /\ if returns (measure s) then ev <$> new = protocol (remote s)
       else (ev <$> new) `prefix_of` protocol (remote s))
  /\ protocol (remote s)
     = (if remote s then [] else [EvWrite ("RMT,1" +:+ LF); EvRead])
       ++ [EvWrite ("MES,1" +:+ LF); EvRead; EvRead;
           EvWrite ("BDR,1,0,0" +:+ LF); EvRead;
           EvWrite ("&" +:+ LF); EvRead;
           EvWrite ("BDR,1,1,0" +:+ LF); EvRead;
           EvWrite ("&" +:+ LF); EvRead;
           EvWrite ("BDR,0,0,0" +:+ LF); EvRead]
       ++ mjoin (replicate 15 [EvWrite ("&" +:+ LF); EvRead])
  /\ (forall hs a1 a2 b1 l2 b2 l10 b3 ls,
        length hs = acks (remote s) -> length ls = 15%nat ->
        feeding (hs ++ [a1; a2; b1; l2; b2; l10; b3] ++ ls)
                (acks (remote s) + 21) s ->
        well_formed_data (split comma l2) ->
        well_formed_data (split comma l10) ->
        Forall (fun l => is_Some (intensities (split comma l))) ls ->
        exists s' new,
          measure s = Ret tt s'
          /\ wire s' = wire s ++ new
          /\ ev <$> new = protocol (remote s)).
Proof.
  pose proof (measure_outcome s) as Hm. split; [|split].
  - destruct (measure s) as [[] s'|e s'|s']; simpl.
    + destruct Hm as (Hw & _). eexists. split; [done|]. apply script_protocol.
    + destruct Hm as (j & n & b & (Hw & _) & _). eexists. split; [done|].
      rewrite fmap_take, script_protocol. apply prefix_take.
    + destruct Hm as (j & n & b & (Hw & _) & _). eexists. split; [done|].
      rewrite fmap_take, script_protocol. apply prefix_take.
  - by destruct (remote s).
  - intros hs a1 a2 b1 l2 b2 l10 b3 ls Hhs Hls Hfed H2 H10 Hsp.
    pose proof (measure_returns s hs a1 a2 b1 l2 b2 l10 b3 ls
                  Hhs Hls Hfed H2 H10 Hsp) as Hret.
    destruct (measure s) as [[] s'|e s'|s']; [|done..].
    destruct Hm as (Hw & _). exists s', (script (remote s)).
    split; [done|]. split; [done|]. apply script_protocol.
Qed.

(** C7. In every reachable state, each measurement command ([MES,1], a
    [BDR] variant or [&]) on the wire was written while the remote flag
    was true; and when [disconnect] returns, the remote flag is false. *)
Theorem remote_before_measurement :
  (forall s, reachable s -> Forall under_remote (wire s))
  /\ (forall s s', disconnect s = Ret tt s' -> remote s' = false).
Proof.
  split; [intros s Hs; by apply reachable_invariant|].
  intros s s'. unfold disconnect, mbind at 1, M_bind at 1, get.
  destruct (remote s) eqn:Hr.
  - intros (? & s1 & Hs & Hk)%bind_Ret. injection Hk as <-. simpl.
    revert Hs. unfold set_remote, mbind at 1, M_bind at 1, get. rewrite Hr.
    intros (? & s2 & _ & Hk)%bind_Ret.
    apply bind_Ret in Hk as (? & s3 & Hf & Hk).
    injection Hf as _ <-. by injection Hk as _ <-.
  - intros Hk. by injection Hk as <-.
Qed.


Lemma all_keys_NoDup : NoDup all_keys.
Proof. by apply (bool_decide_unpack _). Qed.

(** C5, as amended. After a [measure] that returns, the keys of the
    result mapping are the 22 scalar keys and [spectrum], added to the
    keys it had before; on a driver in a reachable state they are exactly
    these 23 keys. *)
Theorem measure_result_keys s s' :
  measure s = Ret tt s' ->
  length scalar_keys = 22%nat
  /\ dom (results s') = list_to_set all_keys ∪ dom (results s)
  /\ (reachable s ->
      dom (results s') = list_to_set all_keys /\ size (results s') = 23%nat).
Proof.
  intros Hm. pose proof (measure_outcome s) as Ho. rewrite Hm in Ho.
  destruct Ho as (_ & _ & _ & _ & new & Hd & Hr).
  assert (Hdom : dom (results s') = list_to_set all_keys ∪ dom (results s))
    by (by rewrite Hr, dom_union_L, Hd).
  split; [done|]. split; [done|].
  intros [_ Hs]%reachable_invariant.
  assert (Heq : dom (results s') = list_to_set all_keys).
  { rewrite Hdom, (comm_L (∪)). by apply subseteq_union_1_L. }
  split; [done|].
  by rewrite <- size_dom, Heq, (size_list_to_set _ all_keys_NoDup).
Qed.


Lemma measure_Ret_lines s s' :
  measure s = Ret tt s' ->
  exists l2 l10 ls vs,
    rx s !! (acks (remote s) + 3)%nat = Some (Some l2)
    /\ rx s !! (acks (remote s) + 5)%nat = Some (Some l10)
    /\ take 15 (drop (acks (remote s) + 7) (rx s)) = Some <$> ls
    /\ length ls = 15%nat
    /\ stored_block "2" (split comma l2) (results s')
    /\ stored_block "10" (split comma l10) (results s')
    /\ intensities (mjoin (split comma <$> ls)) = Some vs
    /\ results s' !! "spectrum" = Some (VSpectrum (transpose vs)).
Proof.
  intros (hs & a1 & a2 & b1 & l2 & b2 & l10 & b3 & ls & vs
          & Hrx & Hhs & Hls & _ & H2 & H10 & Hvs & Hsp)%measure_Ret.
  exists l2, l10, ls, vs. rewrite Hrx.
  assert (Htake : take 15 ((Some <$> ls) ++ rx s') = Some <$> ls).
  { rewrite take_app_le by (by rewrite length_fmap, Hls).
    apply take_ge. by rewrite length_fmap, Hls. }
  destruct (remote s); simpl in Hhs.
  - destruct hs; [|done]. by rewrite !fmap_app, <- !app_assoc.
  - destruct hs as [|h [|]]; [done| |done]. by rewrite !fmap_app, <- !app_assoc.
Qed.

(** C2. In a [measure] that returns, the data line read after
    [BDR,1,0,0] (and the one read after [BDR,1,1,0]) is split at commas;
    its first nine fields are stored as floats under Le, Lv, X, Y, Z, x,
    y, u, v with suffix 2 (resp. 10), the tenth field is stored unparsed
    under T, and Duv holds the raw string at index 8, the index of v. For
    the data line of the example, Le2 is [float "12.3"], Y2 is
    [float "2.2"], T2 is the string 6500 and Duv2 is the string 0.2. *)
Theorem measure_data_blocks s s' l2 l10 :
  measure s = Ret tt s' ->
  rx s !! (acks (remote s) + 3)%nat = Some (Some l2) ->
  rx s !! (acks (remote s) + 5)%nat = Some (Some l10) ->
  stored_block "2" (split comma l2) (results s')
  /\ stored_block "10" (split comma l10) (results s')
  /\ (l2 = example_data ->
      exists le y : F,
        float "12.3" = Some le /\ float "2.2" = Some y
        /\ results s' !! "Le2" = Some (VFloat le)
        /\ results s' !! "Y2" = Some (VFloat y)
        /\ results s' !! "T2" = Some (VStr "6500")
        /\ split comma example_data !! 8%nat = Some "0.2"
        /\ results s' !! "Duv2" = Some (VStr "0.2")).
Proof.
  intros (l2' & l10' & _ & _ & E2 & E10 & _ & _ & H2 & H10 & _)%measure_Ret_lines.
  rewrite E2, E10. intros [= <-] [= <-]. do 2 (split; [done|]).
  intros ->. destruct H2 as (Hf & (t & Ht & HT) & (d & Hd & HD)).
  destruct (Hf "Le" 0%nat) as (tok0 & le & Htok0 & Hle & HLe);
    [unfold scalar_names; set_solver|].
  destruct (Hf "Y" 3%nat) as (tok3 & y & Htok3 & Hy & HY);
    [unfold scalar_names; set_solver|].
  vm_compute in Htok0, Htok3, Ht, Hd. simplify_eq.
  by exists le, y.
Qed.


Lemma length_mjoin_const {A} (k : nat) (lss : list (list A)) :
  Forall (fun l => length l = k) lss -> length (mjoin lss) = (length lss * k)%nat.
Proof.
  induction 1 as [|l lss Hl _ IH]; [done|].
  simpl. rewrite length_app, IH, Hl. done.
Qed.

Lemma transpose_lookup (vs : list F) i v :
  vs !! i = Some v -> transpose vs !! i = Some (380 + Z.of_nat i, v).
Proof.
  intros Hv. unfold transpose, lambd. apply lookup_zip_Some. split; [|done].
  rewrite list_lookup_fmap, lookup_seq_lt; [done|]. by eapply lookup_lt_Some.
Qed.

Lemma transpose_fst (vs : list F) : (transpose vs).*1 = lambd vs.
Proof.
  unfold transpose. apply fst_zip. unfold lambd.
  by rewrite length_fmap, length_seq.
Qed.

(** C4. In a [measure] that returns and whose fifteen spectral reply
    lines have ten comma-separated fields each, the stored spectrum has
    exactly 150 rows, the wavelengths are 380, 381, ..., 529 in order,
    and row [i] holds the float of the [i]-th token of the fifteen lines
    taken together, with wavelength [380 + i]. *)
Theorem measure_spectrum s s' ls :
  measure s = Ret tt s' ->
  take 15 (drop (acks (remote s) + 7) (rx s)) = Some <$> ls ->
  Forall (fun l => length (split comma l) = 10%nat) ls ->
  exists rows,
    results s' !! "spectrum" = Some (VSpectrum rows)
    /\ length rows = 150%nat
    /\ rows.*1 = seqZ 380 150
    /\ forall i tok,
         mjoin (split comma <$> ls) !! i = Some tok ->
         exists v, float (strip tok) = Some v
                   /\ rows !! i = Some (380 + Z.of_nat i, v).
Proof.
  intros (_ & _ & ls' & vs & _ & _ & Els & Hlen & _ & _ & Hvs & Hsp)%measure_Ret_lines.
  rewrite Els. intros <-%(inj (fmap Some)) Hten.
  apply mapM_Some in Hvs.
  assert (Hvlen : length vs = 150%nat).
  { rewrite <- (Forall2_length _ _ _ Hvs).
    rewrite (length_mjoin_const 10), length_fmap, Hlen; [done|].
    by apply Forall_fmap. }
  exists (transpose vs). split; [done|]. split; [|split].
  - rewrite <- (length_fmap fst), transpose_fst. unfold lambd.
    by rewrite length_fmap, length_seq.
  - rewrite transpose_fst. unfold lambd. by rewrite Hvlen.
  - intros i tok Htok.
    destruct (Forall2_lookup_l _ _ _ _ _ Hvs Htok) as (v & Hv & Hf).
    exists v. split; [done|]. by apply transpose_lookup.
Qed.

Lemma for_a_in_strip ans1 : forall ans2 spectrum s,
  strip <$> ans1 = strip <$> ans2 ->
  for_a_in ans1 spectrum s = for_a_in ans2 spectrum s.
Proof.
  induction ans1 as [|a1 ans1 IH]; intros [|a2 ans2] spectrum s; try done.
  intros [= Ha Hans]. simpl. unfold mbind, M_bind. rewrite Ha.
  destruct (py_float (strip a2) s); [by apply IH|done..].
Qed.

Lemma strip_split_app_space l ws :
  all_space ws = true ->
  strip <$> split comma (l +:+ ws) = strip <$> split comma l.
Proof.
  intros Hws. destruct (split_app_space l ws Hws) as (toks & tok & -> & ->).
  by rewrite !fmap_app, !list_fmap_singleton, strip_app_space.
Qed.

Lemma for_a_in_parse ans : forall spectrum s,
  for_a_in ans spectrum s
  = match mapM (fun a => float (strip a)) ans with
    | Some vs => Ret (spectrum ++ vs) s
    | None => Raise ValueError s
    end.
Proof.
  induction ans as [|a ans IH]; intros spectrum s; simpl.
  - by rewrite app_nil_r.
  - unfold py_float, mbind at 1, M_bind at 1.
    destruct (float (strip a)) as [v|]; simpl; [|done].
    rewrite IH. destruct (mapM _ ans) as [vs|]; simpl; [|done].
    by rewrite <- app_assoc.
Qed.

(** C10. In the spectral phase each token is stripped before [float]
    sees it: the inner loop appends [float(a.strip())] for every token
    [a] in order, and raises only when that fails for some token. So
    parsing depends on the stripped tokens only, and whitespace after a
    reply line changes neither the outcome of parsing its tokens nor
    that of the loop that reads it, while it does stay on the last field
    of the line. After a [measure] that returns, the intensities of the
    stored spectrum are the floats of the stripped tokens of the fifteen
    spectral lines, and T2, Duv2, T10 and Duv10 hold the fields of their
    data lines at indices 9 and 8 as they are. *)
Theorem spectral_tokens_stripped :
  (forall ans spectrum s,
     for_a_in ans spectrum s
     = match mapM (fun a => float (strip a)) ans with
       | Some vs => Ret (spectrum ++ vs) s
       | None => Raise ValueError s
       end)
  /\ (forall ans1 ans2 spectrum s,
     strip <$> ans1 = strip <$> ans2 ->
     for_a_in ans1 spectrum s = for_a_in ans2 spectrum s)
  /\ (forall l ws, all_space ws = true ->
     (forall spectrum s,
        for_a_in (split comma (l +:+ ws)) spectrum s
        = for_a_in (split comma l) spectrum s)
     /\ (forall n spectrum s r p b t,
          com s = Some (Opened p b) -> tx s = true :: t ->
          for_i_in_range (S n) spectrum (set_rx (Some (l +:+ ws) :: r) s)
          = for_i_in_range (S n) spectrum (set_rx (Some l :: r) s))
     /\ last (split comma (l +:+ ws))
        = (fun tok => tok +:+ ws) <$> last (split comma l))
  /\ (forall s s' ls,
        measure s = Ret tt s' ->
        take 15 (drop (acks (remote s) + 7) (rx s)) = Some <$> ls ->
        exists vs,
          mapM (fun a => float (strip a)) (mjoin (split comma <$> ls)) = Some vs
          /\ results s' !! "spectrum" = Some (VSpectrum (transpose vs)))
  /\ (forall s s' l2 l10,
        measure s = Ret tt s' ->
        rx s !! (acks (remote s) + 3)%nat = Some (Some l2) ->
        rx s !! (acks (remote s) + 5)%nat = Some (Some l10) ->
        results s' !! "T2" = VStr <$> split comma l2 !! 9%nat
        /\ results s' !! "Duv2" = VStr <$> split comma l2 !! 8%nat
        /\ results s' !! "T10" = VStr <$> split comma l10 !! 9%nat
        /\ results s' !! "Duv10" = VStr <$> split comma l10 !! 8%nat).
Proof.
  split; [apply for_a_in_parse|].
  split; [intros; by apply for_a_in_strip|]. split; [|split].
  - intros l ws Hws.
    assert (Hin : forall spectrum s,
      for_a_in (split comma (l +:+ ws)) spectrum s
      = for_a_in (split comma l) spectrum s).
    { intros. by apply for_a_in_strip, strip_split_app_space. }
    split; [done|]. split.
    + intros n spectrum s r p b t Hc Ht. cbn [for_i_in_range].
      unfold mbind, M_bind, com_write, com_readline. simpl.
      rewrite Hc, Ht. simpl. rewrite Hc. by rewrite Hin.
    + destruct (split_app_space l ws Hws) as (toks & tok & -> & ->).
      by rewrite !last_snoc.
  - intros s s' ls
      (_ & _ & ls' & vs & _ & _ & Els & _ & _ & _ & Hvs & Hsp)%measure_Ret_lines.
    rewrite Els. intros <-%(inj (fmap Some)). by exists vs.
  - intros s s' l2 l10
      (l2' & l10' & _ & _ & E2 & E10 & _ & _ & H2 & H10 & _)%measure_Ret_lines.
    rewrite E2, E10. intros [= <-] [= <-].
    destruct H2 as (_ & (t2 & Et2 & HT2) & (d2 & Ed2 & HD2)).
    destruct H10 as (_ & (t10 & Et10 & HT10) & (d10 & Ed10 & HD10)).
    change (results s' !! "T2" = Some (VStr t2)) in HT2.
    change (results s' !! "Duv2" = Some (VStr d2)) in HD2.
    change (results s' !! "T10" = Some (VStr t10)) in HT10.
    change (results s' !! "Duv10" = Some (VStr d10)) in HD10.
    by rewrite Et2, Ed2, Et10, Ed10, HT2, HD2, HT10, HD10.
Qed.


(** C6. [set_remote] asked for the current state does nothing at all: no
    transfer, same state. So from the disabled state two calls of
    [set_remote(True)] write [RMT,1] exactly once, and [set_remote(False)]
    when already disabled writes nothing. *)
Theorem set_remote_idempotent s :
  (forall on, remote s = on -> set_remote on s = Ret tt s)
  /\ (forall s1, remote s = false -> set_remote true s = Ret tt s1 ->
        set_remote true s1 = Ret tt s1
        /\ wire s1 = wire s ++ [Entry (EvWrite ("RMT,1" +:+ LF)) false;
                                 Entry EvRead false]
        /\ writes (wire s1) = writes (wire s) ++ ["RMT,1" +:+ LF]).
Proof.
  split.
  - intros on <-. unfold set_remote, mbind, M_bind, get.
    by destruct (remote s) eqn:Hr.
  - intros s1 Hr Hs.
    unfold set_remote, mbind, M_bind, get, com_write, com_readline, modify in Hs.
    rewrite Hr in Hs. simpl in Hs.
    destruct (com s) as [[p b|]|] eqn:Hc; [|done..].
    destruct (tx s) as [|[] t]; [done| |done]. simpl in Hs. rewrite Hc in Hs.
    destruct (rx s) as [|[l|] q]; [done| |done]. injection Hs as <-.
    split; [done|]. simpl. rewrite Hr, <- app_assoc.
    split; [done|]. unfold writes. by rewrite omap_app.
Qed.

(** C8, as amended. When the write of [RMT,0] fails during [disconnect],
    the exception reaches the caller and it is a transport error; the
    disconnect does not complete: the handle is not cleared, so the
    driver reports connected as before, and the remote flag stays true. *)
Theorem disconnect_write_fails s e s1 :
  remote s = true ->
  com_write ("RMT,0" +:+ LF) s = Raise e s1 ->
  disconnect s = Raise e s1
  /\ TransportError e = true
  /\ com s1 = com s /\ connected s1 = connected s
  /\ remote s1 = true /\ results s1 = results s.
Proof.
  intros Hr Hw. unfold disconnect, set_remote, mbind, M_bind, get.
  rewrite Hr. cbv beta iota. rewrite Hr. cbv beta iota. rewrite Hw.
  split; [done|].
  revert Hw. unfold com_write, connected.
  destruct (com s) as [[p b|]|] eqn:Hc; [|by intros [= <- <-]; rewrite Hc..].
  destruct (tx s) as [|[] t]; [|done|]; by intros [= <- <-]; simpl; rewrite Hc.
Qed.



End Facts.

(** * Further properties *)

(** ** Text *)

Lemma split_cons sep s : exists tok toks, split sep s = tok :: toks.
Proof.
  destruct (split sep s) as [|tok toks] eqn:Hs; [|by eauto].
  by destruct (split_nonempty sep s).
Qed.

(** X16. [split] cuts a string at every separator and nowhere else:
    joining the tokens with the separator gives the string back, no token
    contains the separator, and a string without separator is its own
    single token. *)
Theorem split_concat sep s :
  String.concat (String sep EmptyString) (split sep s) = s
  /\ Forall (fun tok => has_char sep tok = false) (split sep s)
  /\ (has_char sep s = false -> split sep s = [s]).
Proof.
  induction s as [|c s (IH1 & IH2 & IH3)]; [by repeat constructor|].
  cbn [split has_char]. destruct (Ascii.eqb c sep) eqn:Hc.
  - apply Ascii.eqb_eq in Hc as ->. split; [|split; [by constructor|done]].
    destruct (split_cons sep s) as (tok & toks & Hs). rewrite Hs in *.
    by rewrite <- IH1.
  - destruct (split sep s) as [|tok toks] eqn:Hs;
      [by destruct (split_nonempty sep s)|].
    split; [|split].
    + rewrite <- IH1. by destruct toks.
    + apply Forall_cons in IH2 as [Htok Htoks].
      constructor; [|done]. cbn [has_char]. by rewrite Hc, Htok.
    + simpl. intros Hs'. by injection (IH3 Hs') as -> ->.
Qed.

Lemma lstrip_spec s :
  exists l, all_space l = true /\ s = l +:+ lstrip s
            /\ forall c t, lstrip s = String c t -> is_space c = false.
Proof.
  induction s as [|c s (l & Hl & Hs & Hc)]; [by exists EmptyString|].
  simpl. destruct (is_space c) eqn:Hsp.
  - exists (String c l). simpl. rewrite Hsp, Hl. split; [done|].
    split; [|done]. by rewrite Hs at 1.
  - exists EmptyString. split; [done|]. split; [done|]. by intros ?? [= <- _].
Qed.

Lemma rstrip_spec s :
  exists r, all_space r = true /\ s = rstrip s +:+ r
            /\ (forall c, last_char (rstrip s) = Some c -> is_space c = false)
            /\ (forall c t, s = String c t -> is_space c = false ->
                  exists t', rstrip s = String c t').
Proof.
  induction s as [|c s (r & Hr & Hs & Hlast & Hhead)]; [by exists EmptyString|].
  cbn [rstrip]. destruct (rstrip s) as [|c' t'] eqn:Hrs.
  - destruct (is_space c) eqn:Hsp.
    + exists (String c r). simpl in *. rewrite Hsp, Hr. split; [done|].
      split; [by rewrite Hs at 1|]. split; [done|]. intros ?? [= <- _]. congruence.
    + exists r. split; [done|]. split; [by rewrite Hs at 1|].
      split; [by intros ? [= <-]|]. intros ?? [= <- _] _. by eexists.
  - exists r. split; [done|]. split; [by rewrite Hs at 1|].
    split; [|intros ?? [= <- _] _; by eexists].
    intros c0 Hc0. apply Hlast. by destruct t'.
Qed.

(** X17. [strip] removes whitespace from both ends and nothing else: the
    string is its stripped form between two runs of whitespace, and the
    stripped form neither begins nor ends with a whitespace character. *)
Theorem strip_spec s :
  exists l r,
    all_space l = true /\ all_space r = true
    /\ s = l +:+ strip s +:+ r
    /\ (forall c t, strip s = String c t -> is_space c = false)
    /\ (forall c, last_char (strip s) = Some c -> is_space c = false).
Proof.
  destruct (lstrip_spec s) as (l & Hl & Hs & Hhead).
  destruct (rstrip_spec (lstrip s)) as (r & Hr & Hls & Hlast & Hkeep).
  exists l, r. unfold strip. split; [done|]. split; [done|].
  split; [by rewrite <- Hls|]. split; [|done].
  intros c t Hct. destruct (lstrip s) as [|c0 t0] eqn:Hl0; [done|].
  destruct (Hkeep c0 t0 eq_refl (Hhead c0 t0 eq_refl)) as [t' Ht'].
  rewrite Ht' in Hct. injection Hct as <- _. by eapply Hhead.
Qed.

Section More.

Context {F : Type} `{PyFloat F}.
Implicit Types (s : state F) (e : exn).

(** ** [measure] on well-formed replies *)

(** X1. [measure] returns whenever the port is open, the writes it needs
    go through and the line feeds it the replies of one measurement: the
    acknowledgements, two data lines of at least ten fields whose first
    nine are numbers, and fifteen spectral lines of numbers. *)
Theorem measure_well_formed_returns s hs a1 a2 b1 l2 b2 l10 b3 ls :
  length hs = acks (remote s) -> length ls = 15%nat ->
  feeding (hs ++ [a1; a2; b1; l2; b2; l10; b3] ++ ls) (acks (remote s) + 21) s ->
  well_formed_data (split comma l2) ->
  well_formed_data (split comma l10) ->
  Forall (fun l => is_Some (intensities (split comma l))) ls ->
  exists s', measure s = Ret tt s'.
Proof.
  intros Hhs Hls Hfed H2 H10 Hsp.
  pose proof (measure_returns s hs a1 a2 b1 l2 b2 l10 b3 ls
                Hhs Hls Hfed H2 H10 Hsp) as Hret.
  destruct (measure s) as [[] s'| |]; [by exists s'|done..].
Qed.

(** ** The stored results do not enter a measurement *)

Lemma blind_bind {A B} (m : M F A) (k : A -> M F B) :
  results_blind m -> (forall a, results_blind (k a)) -> results_blind (m ≫= k).
Proof.
  intros Hm Hk s b s2 (a & s1 & Hm1 & Hk1)%bind_Ret.
  destruct (Hm _ _ _ Hm1) as [new1 H1]. destruct (Hk a _ _ _ Hk1) as [new2 H2].
  exists (new2 ∪ new1). intros r. unfold mbind, M_bind.
  by rewrite H1, H2, (assoc_L (∪)).
Qed.

Lemma blind_same {A} (m : M F A) :
  (forall s a s' r,
     m s = Ret a s' -> m (set_results r s) = Ret a (set_results r s')) ->
  results_blind m.
Proof.
  intros Hm s a s' Hs. exists ∅. intros r. rewrite (left_id_L ∅ (∪)). by apply Hm.
Qed.

Lemma blind_ret {A} (a : A) : results_blind (mret a : M F A).
Proof. apply blind_same. by intros s ? s' r [= <- <-]. Qed.

Lemma blind_raise {A} e0 : results_blind (raise e0 : M F A).
Proof. intros s0 a0 s1 Hs. discriminate Hs. Qed.

Lemma blind_get_remote : results_blind (get (F:=F) remote).
Proof. apply blind_same. by intros s ? s' r [= <- <-]. Qed.

Lemma blind_write d : results_blind (com_write (F:=F) d).
Proof.
  apply blind_same. intros s a s' r. unfold com_write. simpl.
  destruct (com s) as [[p b|]|]; [|done..].
  destruct (tx s) as [|[] t]; [done| |done]. by intros [= <- <-].
Qed.

Lemma blind_readline : results_blind (com_readline (F:=F)).
Proof.
  apply blind_same. intros s a s' r. unfold com_readline. simpl.
  destruct (com s) as [[p b|]|]; [|done..].
  destruct (rx s) as [|[l|] t]; [done| |done]. by intros [= <- <-].
Qed.

Lemma blind_set_flag b : results_blind (modify (F:=F) (set_remote_flag b)).
Proof. apply blind_same. by intros s ? s' r [= <- <-]. Qed.

Lemma blind_setitem key v : results_blind (results_setitem (F:=F) key v).
Proof.
  intros s a s' [= <- <-]. exists {[key := v]}. intros r.
  unfold results_setitem, modify, set_results. simpl.
  by rewrite insert_union_singleton_l.
Qed.

Lemma blind_store_float key ans i : results_blind (store_float (F:=F) key ans i).
Proof.
  unfold store_float, getitem, py_float.
  apply blind_bind; [destruct (ans !! i); [apply blind_ret|apply blind_raise]|].
  intros x.
  apply blind_bind; [destruct (float x); [apply blind_ret|apply blind_raise]|].
  intros v. apply blind_setitem.
Qed.

Lemma blind_store_raw key ans i : results_blind (store_raw (F:=F) key ans i).
Proof.
  unfold store_raw, getitem.
  apply blind_bind; [destruct (ans !! i); [apply blind_ret|apply blind_raise]|].
  intros x. apply blind_setitem.
Qed.

Lemma blind_for_a_in ans : forall spectrum,
  results_blind (for_a_in (F:=F) ans spectrum).
Proof.
  induction ans as [|a ans IH]; intros spectrum; simpl; [apply blind_ret|].
  unfold py_float.
  apply blind_bind; [destruct (float _); [apply blind_ret|apply blind_raise]|].
  intros v. apply IH.
Qed.

Lemma blind_for_i_in_range n : forall spectrum,
  results_blind (for_i_in_range (F:=F) n spectrum).
Proof.
  induction n as [|n IH]; intros spectrum; cbn [for_i_in_range]; [apply blind_ret|].
  apply blind_bind; [apply blind_write|intros ?].
  apply blind_bind; [apply blind_readline|intros ?].
  apply blind_bind; [apply blind_for_a_in|intros ?]. apply IH.
Qed.

Lemma blind_set_remote_on : results_blind (set_remote (F:=F) true).
Proof.
  unfold set_remote. apply blind_bind; [apply blind_get_remote|intros [|]]; simpl.
  - apply blind_ret.
  - apply blind_bind; [apply blind_write|intros ?].
    apply blind_bind; [apply blind_readline|intros ?]. apply blind_set_flag.
Qed.

Ltac blind_step :=
  apply blind_bind;
  [ first [ apply blind_write | apply blind_readline | apply blind_store_float
          | apply blind_store_raw | apply blind_for_i_in_range ]
  | intros ?; cbv zeta ].

Lemma blind_measure : results_blind (measure (F:=F)).
Proof.
  unfold measure. apply blind_bind; [apply blind_get_remote|intros r].
  apply blind_bind.
  { destruct r; [apply blind_ret|apply blind_set_remote_on]. }
  intros ?. do 36 blind_step. apply blind_setitem.
Qed.

Lemma set_results_same s : set_results (results s) s = s.
Proof. by destruct s. Qed.

Lemma union_absorbs (new r : gmap string (value F)) :
  dom r ⊆ dom new -> new ∪ r = new.
Proof.
  intros Hd. apply map_eq. intros k. rewrite lookup_union.
  destruct (new !! k) as [v|] eqn:Hk; [by destruct (r !! k)|].
  apply not_elem_of_dom in Hk.
  assert (r !! k = None) as ->; [|done].
  apply not_elem_of_dom. intros Hr. by apply Hk, Hd.
Qed.

(** X2. A returning [measure] overwrites: there is a mapping [new] on
    exactly the 23 keys such that, whatever results were stored before,
    the same call returns with [new] laid over them; so when the stored
    keys are among the 23, as in every reachable state, nothing of the
    earlier results is left. *)
Theorem measure_overwrites s s' :
  measure s = Ret tt s' ->
  exists new : gmap string (value F),
    dom new = list_to_set all_keys
    /\ results s' = new ∪ results s
    /\ forall r,
         measure (set_results r s) = Ret tt (set_results (new ∪ r) s')
         /\ (dom r ⊆ list_to_set all_keys -> new ∪ r = new).
Proof.
  intros Hm. destruct (blind_measure s tt s' Hm) as [new Hnew].
  assert (Hdom : dom new = list_to_set all_keys).
  { pose proof (measure_outcome (set_results ∅ s)) as Ho.
    rewrite (Hnew ∅) in Ho.
    destruct Ho as (_ & _ & _ & _ & new' & Hd & Hr). simpl in Hr.
    rewrite !(right_id_L ∅ (∪)) in Hr. by rewrite Hr. }
  exists new. split; [done|]. split.
  - pose proof (Hnew (results s)) as Hs. rewrite set_results_same, Hm in Hs.
    injection Hs as Hs. by rewrite Hs at 1.
  - intros r. split; [done|]. intros Hr. apply union_absorbs. by rewrite Hdom.
Qed.

(** ** Two measurements in a row *)

Lemma feeding_weaken ls ls' n n' s :
  feeding (ls ++ ls') (n + n') s -> feeding ls n s.
Proof.
  intros (Hc & (r & Hr) & (t & Ht)). split; [done|]. split.
  - exists ((Some <$> ls') ++ r). by rewrite Hr, fmap_app, <- app_assoc.
  - exists (replicate n' true ++ t). by rewrite Ht, replicate_add, <- app_assoc.
Qed.

(** X3. When the line feeds the replies of two measurements, two calls of
    [measure] in a row both return; the second one transfers the
    measurement protocol without [RMT,1], reads the second set of
    replies and stores its values under the same keys. *)
Theorem measure_twice s hs a1 a2 b1 l2 b2 l10 b3 ls c1 c2 d1 m2 d2 m10 d3 ms :
  length hs = acks (remote s) -> length ls = 15%nat -> length ms = 15%nat ->
  feeding ((hs ++ [a1; a2; b1; l2; b2; l10; b3] ++ ls)
           ++ [c1; c2; d1; m2; d2; m10; d3] ++ ms)
          ((acks (remote s) + 21) + 21) s ->
  well_formed_data (split comma l2) -> well_formed_data (split comma l10) ->
  well_formed_data (split comma m2) -> well_formed_data (split comma m10) ->
  Forall (fun l => is_Some (intensities (split comma l))) ls ->
  Forall (fun l => is_Some (intensities (split comma l))) ms ->
  exists s1 s2 vs new,
    measure s = Ret tt s1 /\ measure s1 = Ret tt s2
    /\ stored_block "2" (split comma m2) (results s2)
    /\ stored_block "10" (split comma m10) (results s2)
    /\ intensities (mjoin (split comma <$> ms)) = Some vs
    /\ results s2 !! "spectrum" = Some (VSpectrum (transpose vs))
    /\ dom (results s2) = dom (results s1)
    /\ wire s2 = wire s1 ++ new /\ ev <$> new = measurement_protocol.
Proof.
  intros Hhs Hls Hms Hfed Hl2 Hl10 Hm2 Hm10 Hsp Hsp'.
  pose proof (feeding_weaken _ _ _ _ _ Hfed) as Hfed1.
  pose proof (measure_returns s hs a1 a2 b1 l2 b2 l10 b3 ls
                Hhs Hls Hfed1 Hl2 Hl10 Hsp) as Hret.
  destruct (measure s) as [[] s1| |] eqn:Hm1; [clear Hret|done..].
  pose proof (measure_outcome s) as Ho. rewrite Hm1 in Ho.
  destruct Ho as (_ & Hr1 & Hc1 & _ & new1 & Hd1 & Hres1).
  pose proof Hm1 as Hinv.
  apply measure_Ret in Hinv as (hs' & a1' & a2' & b1' & l2' & b2' & l10' & b3'
    & ls' & vs' & Hrx & Hhs' & Hls' & Htx & _).
  destruct Hfed as ((p & b & Hcom) & (r & Hfrx) & (t & Hftx)).
  assert (Hrx1 : rx s1 = (Some <$> [c1; c2; d1; m2; d2; m10; d3] ++ ms) ++ r).
  { rewrite fmap_app, <- app_assoc in Hfrx. rewrite Hrx in Hfrx.
    apply app_inj_1 in Hfrx as [_ Hfrx]; [done|].
    rewrite !length_fmap, !length_app. simpl. lia. }
  assert (Htx1 : tx s1 = replicate 21 true ++ t).
  { rewrite replicate_add, <- app_assoc in Hftx. rewrite Htx in Hftx.
    by apply app_inj_1 in Hftx as [_ Hftx]. }
  assert (Hfed2 : feeding ([] ++ [c1; c2; d1; m2; d2; m10; d3] ++ ms)
                          (acks (remote s1) + 21) s1).
  { rewrite Hr1. split; [exists p, b; by rewrite Hc1|]. split; eauto. }
  pose proof (measure_returns s1 [] c1 c2 d1 m2 d2 m10 d3 ms
                ltac:(by rewrite Hr1) Hms Hfed2 Hm2 Hm10 Hsp') as Hret.
  destruct (measure s1) as [[] s2| |] eqn:Hm2'; [clear Hret|done..].
  pose proof (measure_outcome s1) as Ho. rewrite Hm2' in Ho.
  destruct Ho as (Hw2 & _ & _ & _ & new2 & Hd2 & Hres2).
  pose proof Hm2' as Hinv.
  apply measure_Ret_lines in Hinv as (m2' & m10' & ms' & vs & E2 & E10 & Els & _
    & Hb2 & Hb10 & Hvs & Hspec).
  rewrite Hr1, Hrx1 in E2, E10, Els. simpl in E2, E10, Els.
  injection E2 as <-. injection E10 as <-.
  assert (ms' = ms) as ->.
  { apply (inj (fmap Some)). rewrite <- Els, drop_0.
    change (list_fmap string (option string) Some ms) with (Some <$> ms).
    rewrite take_app_le by (by rewrite length_fmap, Hms).
    apply take_ge. by rewrite length_fmap, Hms. }
  exists s1, s2, vs, (script true). do 6 (split; [done|]). split; [|split].
  - rewrite Hres2, Hres1, !dom_union_L, Hd1, Hd2.
    by rewrite (assoc_L (∪)), (idemp_L (∪)).
  - by rewrite Hw2, Hr1.
  - apply (script_protocol true).
Qed.

(** ** The spectrum whatever the lines hold *)

Lemma lambd_seqZ (vs : list F) : lambd vs = seqZ 380 (Z.of_nat (length vs)).
Proof.
  unfold lambd, seqZ. rewrite Nat2Z.id. apply list_fmap_ext.
  intros i x _. lia.
Qed.

Lemma length_mjoin_ge {A} (lss : list (list A)) :
  Forall (fun l => l <> []) lss -> (length lss <= length (mjoin lss))%nat.
Proof.
  induction 1 as [|l lss Hl _ IH]; [done|].
  simpl. rewrite length_app. destruct l; [done|]. simpl. lia.
Qed.

(** X4. [measure] does not count the tokens of the spectral lines: when
    it returns, the spectrum has one row for each token of the fifteen
    lines, at least fifteen rows, and the wavelengths run from 380 in
    steps of one whatever that number is. *)
Theorem measure_spectrum_rows s s' ls :
  measure s = Ret tt s' ->
  take 15 (drop (acks (remote s) + 7) (rx s)) = Some <$> ls ->
  exists rows,
    results s' !! "spectrum" = Some (VSpectrum rows)
    /\ length rows = length (mjoin (split comma <$> ls))
    /\ (15 <= length rows)%nat
    /\ rows.*1 = seqZ 380 (Z.of_nat (length rows)).
Proof.
  intros (_ & _ & ls' & vs & _ & _ & Els & Hlen & _ & _ & Hvs & Hsp)%measure_Ret_lines.
  rewrite Els. intros <-%(inj (fmap Some)).
  apply mapM_Some in Hvs. pose proof (Forall2_length _ _ _ Hvs) as Hl.
  assert (Hrows : length (transpose vs) = length vs).
  { rewrite <- (length_fmap fst), transpose_fst. unfold lambd.
    by rewrite length_fmap, length_seq. }
  exists (transpose vs). split; [done|]. rewrite Hrows. split; [done|]. split.
  - rewrite <- Hl, <- Hlen, <- (length_fmap (split comma) ls').
    apply length_mjoin_ge, Forall_fmap, Forall_forall. intros l _.
    apply split_nonempty.
  - by rewrite transpose_fst, lambd_seqZ.
Qed.

(** ** Without an open port *)

Lemma bind_Raise_l {A B} (m : M F A) (k : A -> M F B) s e s' :
  m s = Raise e s' -> (m ≫= k) s = Raise e s'.
Proof. unfold mbind, M_bind. by intros ->. Qed.

Lemma com_write_no_port d s e :
  no_port s = Some e -> com_write d s = Raise e s.
Proof.
  unfold no_port, com_write.
  destruct (com s) as [[p b|]|]; [done|..]; by intros [= <-].
Qed.

Lemma set_remote_on_no_port s e :
  no_port s = Some e -> remote s = false -> set_remote true s = Raise e s.
Proof.
  intros He Hr. unfold set_remote, mbind at 1, M_bind at 1, get. rewrite Hr.
  by apply bind_Raise_l, com_write_no_port.
Qed.

Lemma measure_no_port s e : no_port s = Some e -> measure s = Raise e s.
Proof.
  intros He. unfold measure, mbind at 1, M_bind at 1, get.
  destruct (remote s) eqn:Hr; cbn [negb].
  - unfold mbind at 1, M_bind at 1. cbn [mret M_ret].
    by apply bind_Raise_l, com_write_no_port.
  - by apply bind_Raise_l, set_remote_on_no_port.
Qed.

(** X5. On a driver whose handle is [None] or the unopened one, [measure]
    raises at its first write, [AttributeError] resp. [SerialException],
    both transport errors, and so does [set_remote(True)] when remote is
    off; nothing is transferred and the state is left as it was. *)
Theorem measure_without_port s e :
  no_port s = Some e ->
  measure s = Raise e s
  /\ (remote s = false -> set_remote true s = Raise e s)
  /\ TransportError e = true.
Proof.
  intros He. split; [by apply measure_no_port|].
  split; [by apply set_remote_on_no_port|].
  unfold no_port in He. destruct (com s) as [[]|]; by simplify_eq.
Qed.

(** ** What [measure] keeps and which exceptions it raises *)

Section Guarded.

Variable I : state F -> Prop.
Variable E : exn -> Prop.
Hypothesis I_handle :
  forall s s', com s' = com s -> remote s' = remote s -> I s -> I s'.
Hypothesis I_remote_on : forall s, I s -> I (set_remote_flag true s).
Hypothesis E_attribute : forall s, I s -> com s = None -> E AttributeError.
Hypothesis E_serial : E SerialException.
Hypothesis E_value : E ValueError.
Hypothesis E_index : E IndexError.

Lemma guarded_bind {A B} (m : M F A) (k : A -> M F B) :
  guarded I E m -> (forall a, guarded I E (k a)) -> guarded I E (m ≫= k).
Proof.
  intros Hm Hk s Hs. unfold mbind, M_bind. specialize (Hm s Hs).
  destruct (m s) as [a s1|e s1|s1]; [by apply Hk|done..].
Qed.

Lemma guarded_ret {A} (a : A) : guarded I E (mret a).
Proof. by intros s Hs. Qed.

Lemma guarded_get {A} (f : state F -> A) : guarded I E (get f).
Proof. by intros s Hs. Qed.

Lemma guarded_write d : guarded I E (com_write d).
Proof.
  intros s Hs. unfold com_write. destruct (com s) as [[p b|]|] eqn:Hc.
  - destruct (tx s) as [|[] t]; [done| |split; [|done]];
      by apply (I_handle s).
  - done.
  - split; [done|]. by eapply E_attribute.
Qed.

Lemma guarded_readline : guarded I E com_readline.
Proof.
  intros s Hs. unfold com_readline. destruct (com s) as [[p b|]|] eqn:Hc.
  - destruct (rx s) as [|[l|] t]; [done| |split; [|done]];
      by apply (I_handle s).
  - done.
  - split; [done|]. by eapply E_attribute.
Qed.

Lemma guarded_setitem key v : guarded I E (results_setitem key v).
Proof. intros s Hs. by apply (I_handle s). Qed.

Lemma guarded_store_float key ans i : guarded I E (store_float key ans i).
Proof.
  intros s Hs. unfold store_float, getitem, py_float, mbind, M_bind.
  destruct (ans !! i) as [x|]; simpl; [|done].
  destruct (float x) as [v|]; simpl; [|done]. by apply (I_handle s).
Qed.

Lemma guarded_store_raw key ans i : guarded I E (store_raw key ans i).
Proof.
  intros s Hs. unfold store_raw, getitem, mbind, M_bind.
  destruct (ans !! i) as [x|]; simpl; [|done]. by apply (I_handle s).
Qed.

Lemma guarded_for_a_in ans : forall spectrum, guarded I E (for_a_in ans spectrum).
Proof.
  induction ans as [|a ans IH]; intros spectrum s Hs; simpl; [done|].
  unfold py_float, mbind, M_bind.
  destruct (float (strip a)) as [v|]; simpl; [by apply IH|done].
Qed.

Lemma guarded_for_i_in_range n : forall spectrum,
  guarded I E (for_i_in_range n spectrum).
Proof.
  induction n as [|n IH]; intros spectrum; cbn [for_i_in_range];
    [apply guarded_ret|].
  apply guarded_bind; [apply guarded_write|intros ?].
  apply guarded_bind; [apply guarded_readline|intros ?].
  apply guarded_bind; [apply guarded_for_a_in|intros ?]. apply IH.
Qed.

Lemma guarded_set_remote_on : guarded I E (set_remote true).
Proof.
  unfold set_remote. apply guarded_bind; [apply guarded_get|intros [|]]; simpl.
  - apply guarded_ret.
  - apply guarded_bind; [apply guarded_write|intros ?].
    apply guarded_bind; [apply guarded_readline|intros ?].
    intros s Hs. by apply I_remote_on.
Qed.

Ltac guarded_step :=
  apply guarded_bind;
  [ first [ apply guarded_write | apply guarded_readline
          | apply guarded_store_float | apply guarded_store_raw
          | apply guarded_for_i_in_range ]
  | intros ?; cbv zeta ].

Lemma guarded_measure : guarded I E measure.
Proof.
  unfold measure. apply guarded_bind; [apply guarded_get|intros r].
  apply guarded_bind.
  { destruct r; [apply guarded_ret|apply guarded_set_remote_on]. }
  intros ?. do 36 guarded_step. apply guarded_setitem.
Qed.

End Guarded.

(** X6. [measure] raises [AttributeError] exactly on a driver that
    reports not connected: there it raises it at once and changes
    nothing, and on a driver that reports connected no exception it
    raises is an [AttributeError]. *)
Theorem measure_attribute_error s :
  (get_connected s = Ret false s -> measure s = Raise AttributeError s)
  /\ (get_connected s = Ret true s ->
      forall e s', measure s = Raise e s' -> e <> AttributeError).
Proof.
  unfold get_connected, get. split.
  - intros Hc. injection Hc as Hc.
    apply negb_false_iff, bool_decide_eq_true in Hc.
    apply measure_no_port. unfold no_port. by rewrite Hc.
  - intros Hc e s' Hm. injection Hc as Hc.
    apply negb_true_iff, bool_decide_eq_false in Hc.
    pose proof (guarded_measure (fun s => com s <> None)
                  (fun e => e <> AttributeError)) as Hg.
    unfold guarded in Hg. specialize (Hg ltac:(by intros ?? ->) ltac:(done)
      ltac:(done) ltac:(done) ltac:(done) ltac:(done) s Hc).
    rewrite Hm in Hg. by destruct Hg.
Qed.

(** X7. [measure] never switches remote control off and never touches
    the handle: returning or raising, it leaves the flag on when it was
    on, the flag is on whenever it returns, and [self.com] is what it
    was. *)
Theorem measure_keeps_remote_on s :
  (remote s = true -> remote (state_of (measure s)) = true)
  /\ (returns (measure s) = true -> remote (state_of (measure s)) = true)
  /\ com (state_of (measure s)) = com s.
Proof.
  split; [|split].
  - intros Hr.
    pose proof (guarded_measure (fun s => remote s = true) (fun _ => True)) as Hg.
    unfold guarded in Hg. specialize (Hg ltac:(by intros ??? ->) ltac:(done)
      ltac:(done) ltac:(done) ltac:(done) ltac:(done) s Hr).
    destruct (measure s); [done|by destruct Hg|done].
  - pose proof (measure_outcome s) as Ho.
    destruct (measure s); [|done..]. by destruct Ho as (_ & ? & _).
  - by destruct (measure_frame s) as (? & _).
Qed.

(** ** The remote flag and the handle *)

Lemma set_remote_off_Ret s s' :
  remote s = true -> set_remote false s = Ret tt s' ->
  wire s' = wire s ++ [Entry (EvWrite ("RMT,0" +:+ LF)) true]
  /\ rx s' = rx s /\ tx s = true :: tx s'
  /\ remote s' = false /\ com s' = Some Unopened
  /\ results s' = results s /\ ports s' = ports s.
Proof.
  intros Hr. unfold set_remote, mbind, M_bind, get, com_write, modify.
  rewrite Hr. destruct (com s) as [[p b|]|]; [|done..].
  destruct (tx s) as [|[] t]; [done| |done]. intros [= <-]. simpl.
  by rewrite Hr.
Qed.

Lemma skip_or_off_Ret s s' :
  (if remote s then set_remote false else mret tt) s = Ret tt s' ->
  wire s' = wire s ++ (if remote s then [Entry (EvWrite ("RMT,0" +:+ LF)) true]
                       else [])
  /\ rx s' = rx s /\ remote s' = false
  /\ results s' = results s /\ ports s' = ports s.
Proof.
  destruct (remote s) eqn:Hr.
  - intros (? & ? & ? & ? & ? & ? & ?)%set_remote_off_Ret; done.
  - intros [= <-]. by rewrite app_nil_r.
Qed.

Lemma connect_Ret port baud_rate s s' :
  connect port baud_rate s = Ret tt s' ->
  com s' = Some (Opened port baud_rate) /\ remote s' = false
  /\ port ∈ ports s
  /\ results s' = results s /\ rx s' = rx s
  /\ wire s' = wire s ++ (if remote s then [Entry (EvWrite ("RMT,0" +:+ LF)) true]
                          else []).
Proof.
  unfold connect, mbind at 1, M_bind at 1, get.
  intros ([] & s1 & (Hw & Hx & Hr & Hres & Hp)%skip_or_off_Ret & Hk)%bind_Ret.
  revert Hk. unfold mbind, M_bind, Serial, modify.
  destruct (baud_rate <? 0); [done|].
  destruct (bool_decide (port ∈ ports s1)) eqn:Hin; [|done].
  destruct (baud_rate <? 2 ^ 31); [|done].
  intros [= <-]. simpl. apply bool_decide_eq_true in Hin.
  by rewrite <- Hp.
Qed.

Lemma set_remote_has_port on s :
  remote_has_port s -> remote_has_port (state_of (set_remote on s)).
Proof.
  unfold remote_has_port.
  unfold set_remote, com_write, com_readline, mbind, M_bind, get, modify.
  destruct on, (remote s) eqn:Hr, (com s) as [[p r|]|] eqn:Hc,
    (tx s) as [|[] t] eqn:Ht, (rx s) as [|[l|] q] eqn:Hx;
    repeat (progress (simpl; rewrite ?Hc, ?Ht, ?Hx, ?Hr)); eauto; done.
Qed.

Lemma skip_or_off_has_port s :
  remote_has_port s ->
  remote_has_port (state_of ((if remote s then set_remote false else mret tt) s)).
Proof.
  intros Hs. destruct (remote s) eqn:Hr; [by apply set_remote_has_port|done].
Qed.

(** X8. In every reachable state in which the remote flag is on, the
    handle is an opened port: the flag is never on over [None] or over
    the unopened handle. *)
Theorem remote_needs_open_port s :
  reachable s -> remote s = true -> exists p b, com s = Some (Opened p b).
Proof.
  intros Hs. change (remote_has_port s).
  induction Hs as [port baud_rate line s Hw Hi|c s Hs IH].
  - intros Hr. unfold init in Hi.
    assert (remote s = false); [|congruence].
    destruct port as [[|c p]|]; [by injection Hi as <-| |by injection Hi as <-].
    by apply connect_Ret in Hi as (_ & ? & _).
  - destruct c; cbn [run]; try done.
    + unfold connect, mbind at 1, M_bind at 1, get.
      pose proof (skip_or_off_has_port s IH) as Hk.
      unfold mbind, M_bind.
      destruct ((if remote s then set_remote false else mret ()) s)
        as [[] s1|e s1|s1] eqn:Hs1; [|done..].
      unfold Serial, modify.
      destruct (baud_rate <? 0), (bool_decide (port ∈ ports s1)),
        (baud_rate <? 2 ^ 31); try done.
      intros _. by eexists _, _.
    + unfold disconnect, mbind at 1, M_bind at 1, get.
      pose proof (skip_or_off_has_port s IH) as Hk.
      unfold mbind, M_bind.
      destruct ((if remote s then set_remote false else mret ()) s)
        as [[] s1|e s1|s1] eqn:Hs1; [|done..].
      apply skip_or_off_Ret in Hs1 as (_ & _ & Hr & _).
      simpl. intros Hr'. simpl in Hr'. congruence.
    + by apply set_remote_has_port.
    + destruct (com s) as [[p b|]|] eqn:Hc.
      * intros _. destruct (measure_frame s) as (-> & _). by eexists _, _.
      * rewrite (measure_no_port s SerialException); [done|].
        unfold no_port. by rewrite Hc.
      * rewrite (measure_no_port s AttributeError); [done|].
        unfold no_port. by rewrite Hc.
Qed.

(** X9. [set_remote(True)] sets the flag only after the reply has been
    read. When the write goes through and the device stays silent, the
    call never comes back, with [RMT,1] written and the flag still off.
    When the read fails, the call raises with [RMT,1] written and the
    flag still off; a second call then writes [RMT,1] again, and it
    returns with the flag on when that write goes through and a reply
    comes. *)
Theorem set_remote_on_reply_lost s p b t :
  remote s = false -> com s = Some (Opened p b) -> tx s = true :: t ->
  exists s1,
    remote s1 = false /\ com s1 = com s /\ tx s1 = t /\ rx s1 = rx s
    /\ wire s1 = wire s ++ [Entry (EvWrite ("RMT,1" +:+ LF)) false]
    /\ (rx s = [] -> set_remote true s = Hang s1)
    /\ (forall q, rx s = None :: q ->
          set_remote true s = Raise SerialException (set_rx q s1)
          /\ forall t' l q', t = true :: t' -> q = Some l :: q' ->
               exists s2,
                 set_remote true (set_rx q s1) = Ret tt s2
                 /\ remote s2 = true
                 /\ writes (wire s2)
                    = writes (wire s) ++ ["RMT,1" +:+ LF; "RMT,1" +:+ LF]).
Proof.
  intros Hr Hc Ht.
  exists (log (EvWrite ("RMT,1" +:+ LF)) (set_tx t s)).
  destruct s as [res c r w x tl pts]. simpl in *. subst c r tl.
  do 5 (split; [done|]). split.
  - by intros ->.
  - intros q ->. split; [done|].
    intros t' l q' -> ->. eexists. split; [reflexivity|]. split; [done|].
    simpl. unfold writes. by rewrite <- !app_assoc, !omap_app.
Qed.

(** X10. [set_remote(False)] with remote on is fire and forget: when it
    returns it has written [RMT,0] and nothing else, has read no reply,
    and has left the flag off, the unopened handle in [self.com] and the
    results as they were. *)
Theorem set_remote_off_returns s s' :
  remote s = true -> set_remote false s = Ret tt s' ->
  wire s' = wire s ++ [Entry (EvWrite ("RMT,0" +:+ LF)) true]
  /\ rx s' = rx s /\ tx s = true :: tx s'
  /\ remote s' = false /\ com s' = Some Unopened
  /\ results s' = results s /\ ports s' = ports s.
Proof. apply set_remote_off_Ret. Qed.

(** ** [connect], the constructor and [disconnect] *)

(** X11. When [connect] returns, the handle is the port just opened with
    the given baud rate, the remote flag is off and the results are as
    before; it has read nothing, and it has written [RMT,0], on the old
    handle, exactly when remote was on. *)
Theorem connect_returns port baud_rate s s' :
  connect port baud_rate s = Ret tt s' ->
  com s' = Some (Opened port baud_rate) /\ remote s' = false
  /\ port ∈ ports s
  /\ results s' = results s /\ rx s' = rx s
  /\ wire s' = wire s ++ (if remote s then [Entry (EvWrite ("RMT,0" +:+ LF)) true]
                          else []).
Proof. apply connect_Ret. Qed.

Lemma Serial_refuses port baud_rate s e :
  (baud_rate < 0 /\ e = ValueError)
  \/ (0 <= baud_rate < 2 ^ 31 /\ (port ∉ ports s) /\ e = SerialException) ->
  forall s1, ports s1 = ports s -> Serial port baud_rate s1 = Raise e s1.
Proof.
  intros Hcase s1 Hs1. unfold Serial. rewrite Hs1.
  destruct Hcase as [[Hb ->]|(Hb & Hp & ->)].
  - by rewrite (proj2 (Z.ltb_lt _ _) Hb).
  - rewrite (proj2 (Z.ltb_ge _ _) (proj1 Hb)).
    by rewrite bool_decide_eq_false_2.
Qed.

(** X12. [connect] never returns when [serial.Serial] refuses: it raises
    [ValueError] for a negative baud rate, whatever the port, and
    [SerialException] for a port that cannot be opened, at a rate from 0
    up to 2^31 - 1. With remote off nothing has changed; with remote on
    and [RMT,0] written it raises after the old handle has been replaced:
    the driver is left with the unopened handle, remote off, and still
    reports connected. *)
Theorem connect_port_fails port baud_rate s e :
  (baud_rate < 0 /\ e = ValueError)
  \/ (0 <= baud_rate < 2 ^ 31 /\ (port ∉ ports s) /\ e = SerialException) ->
  returns (connect port baud_rate s) = false
  /\ (remote s = false -> connect port baud_rate s = Raise e s)
  /\ (forall s1, remote s = true -> set_remote false s = Ret tt s1 ->
        connect port baud_rate s = Raise e s1
        /\ com s1 = Some Unopened /\ connected s1 = true /\ remote s1 = false).
Proof.
  intros Hcase. pose proof (Serial_refuses port baud_rate s e Hcase) as Hser.
  assert (Hoff : remote s = false -> connect port baud_rate s = Raise e s).
  { intros Hr. unfold connect, mbind, M_bind, get. rewrite Hr.
    cbn [mret M_ret]. by rewrite Hser. }
  assert (Hon : forall s1, remote s = true -> set_remote false s = Ret tt s1 ->
            connect port baud_rate s = Raise e s1
            /\ com s1 = Some Unopened /\ connected s1 = true /\ remote s1 = false).
  { intros s1 Hr Hs1. unfold connect, mbind, M_bind, get. rewrite Hr, Hs1.
    apply set_remote_off_Ret in Hs1 as (_ & _ & _ & ? & Hc & _ & Hports); [|done].
    rewrite (Hser s1 Hports). unfold connected. by rewrite Hc. }
  split; [|by split].
  destruct (remote s) eqn:Hr; [|by rewrite Hoff].
  destruct (set_remote false s) as [[] s1|e1 s1|s1] eqn:Hs1.
  - by destruct (Hon s1 eq_refl eq_refl) as [-> _].
  - unfold connect, mbind, M_bind, get. by rewrite Hr, Hs1.
  - unfold connect, mbind, M_bind, get. by rewrite Hr, Hs1.
Qed.

(** The constructor transfers nothing and starts from empty results and
    remote off. *)
Lemma init_cases port baud_rate (line : state F) :
  let o := init port baud_rate line in
  wire (state_of o) = wire line /\ rx (state_of o) = rx line
  /\ tx (state_of o) = tx line /\ results (state_of o) = ∅
  /\ remote (state_of o) = false.
Proof.
  unfold init. destruct port as [[|c p]|]; [done| |done].
  unfold connect, mbind, M_bind, get, Serial, modify. simpl.
  by destruct (baud_rate <? 0), (bool_decide (String c p ∈ ports line)),
    (baud_rate <? 2 ^ 31).
Qed.

(** X14. Only [measure] changes the stored results: the constructor
    leaves them empty, and [connect], [disconnect], [set_remote] and the
    three getters leave them as they are, whether they return or raise. *)
Theorem results_only_by_measure :
  (forall port baud_rate (line s : state F),
     init port baud_rate line = Ret tt s -> results s = ∅)
  /\ (forall c s, c <> Measure -> results (state_of (run c s)) = results s).
Proof.
  split.
  - intros port baud_rate line s Hi.
    destruct (init_cases port baud_rate line) as (_ & _ & _ & Hr & _).
    by rewrite Hi in Hr.
  - intros c s Hc. destruct c; cbn [run]; try done.
    + by apply connect_frame.
    + by apply disconnect_frame.
    + by apply set_remote_frame.
Qed.

(** X15. After a [disconnect] that returned, a second [disconnect] and
    [set_remote(False)] return without doing anything, [set_remote(True)]
    and [measure] raise [AttributeError] without doing anything, and the
    results of the last measurement are still stored. *)
Theorem disconnect_then s s' :
  disconnect s = Ret tt s' ->
  disconnect s' = Ret tt s'
  /\ set_remote false s' = Ret tt s'
  /\ set_remote true s' = Raise AttributeError s'
  /\ measure s' = Raise AttributeError s'
  /\ results s' = results s.
Proof.
  unfold disconnect at 1, mbind at 1, M_bind at 1, get.
  intros ([] & s1 & (_ & _ & Hr & Hres & _)%skip_or_off_Ret & Hk)%bind_Ret.
  injection Hk as <-.
  assert (Hno : no_port (set_com None s1) = Some AttributeError) by done.
  split; [|split; [|split; [|split]]].
  - unfold disconnect, mbind, M_bind, get, modify. simpl. by rewrite Hr.
  - unfold set_remote, mbind, M_bind, get. simpl. by rewrite Hr.
  - by apply set_remote_on_no_port.
  - by apply measure_no_port.
  - done.
Qed.

End More.

(** * Runs on the simulated line *)

Lemma connected_driver_reachable : reachable Sim.connected_driver.
Proof.
  apply (reachable_init (Some "COM1") 19200
           (Sim.line_of Sim.replies (replicate 64 true)));
    [reflexivity|vm_compute; reflexivity].
Defined.

Lemma example_data_well_formed : well_formed_data (F:=Sim.dec) (split comma example_data).
Proof.
  split; [|by eexists].
  intros i Hi. do 9 (destruct i as [|i]; [by eexists _, _|]). lia.
Defined.

Lemma data10_well_formed : well_formed_data (F:=Sim.dec) (split comma Sim.data10).
Proof.
  split; [|by eexists].
  intros i Hi. do 9 (destruct i as [|i]; [by eexists _, _|]). lia.
Defined.

Lemma sweeps_well_formed :
  Forall (fun l => is_Some (intensities (F:=Sim.dec) (split comma l)))
         (replicate 15 Sim.sweep).
Proof. apply Forall_replicate. by eexists. Defined.

Lemma connected_driver_fed :
  feeding ([Sim.ok] ++ [Sim.ok; Sim.ok; Sim.ok; example_data; Sim.ok; Sim.data10; Sim.ok]
           ++ replicate 15 Sim.sweep)
          (acks (remote Sim.connected_driver) + 21) Sim.connected_driver.
Proof.
  split; [by eexists _, _|]. split.
  - exists []. vm_compute. reflexivity.
  - exists (replicate 42 true). vm_compute. reflexivity.
Defined.

Lemma measure_protocol_order_witness :
  measure Sim.connected_driver = Ret tt Sim.measured
  /\ exists new,
       wire Sim.measured = wire Sim.connected_driver ++ new
       /\ ev <$> new
          = [EvWrite ("RMT,1" +:+ LF); EvRead;
             EvWrite ("MES,1" +:+ LF); EvRead; EvRead;
             EvWrite ("BDR,1,0,0" +:+ LF); EvRead;
             EvWrite ("&" +:+ LF); EvRead;
             EvWrite ("BDR,1,1,0" +:+ LF); EvRead;
             EvWrite ("&" +:+ LF); EvRead;
             EvWrite ("BDR,0,0,0" +:+ LF); EvRead]
            ++ mjoin (replicate 15 [EvWrite ("&" +:+ LF); EvRead]).
Proof.
  assert (Hrun : measure Sim.connected_driver = Ret tt Sim.measured)
    by (vm_compute; reflexivity).
  split; [exact Hrun|].
  destruct (measure_protocol_order Sim.connected_driver) as (_ & Hlist & Hret).
  destruct (Hret [Sim.ok] Sim.ok Sim.ok Sim.ok example_data Sim.ok Sim.data10
              Sim.ok (replicate 15 Sim.sweep))
    as (s' & new & Hm & Hw & Hev).
  - reflexivity.
  - reflexivity.
  - exact connected_driver_fed.
  - exact example_data_well_formed.
  - exact data10_well_formed.
  - exact sweeps_well_formed.
  - assert (Hs' : s' = Sim.measured) by congruence. subst s'.
    exists new. split; [exact Hw|]. rewrite Hev, Hlist. reflexivity.
Defined.



Lemma measure_data_blocks_witness :
  rx Sim.connected_driver !! 4%nat = Some (Some example_data)
  /\ results Sim.measured !! "Le2" = Some (VFloat (Sim.Dec 123 1))
  /\ results Sim.measured !! "Y2" = Some (VFloat (Sim.Dec 22 1))
  /\ results Sim.measured !! "T2" = Some (VStr "6500")
  /\ results Sim.measured !! "Duv2" = Some (VStr "0.2")
  /\ stored_block "10" (split comma Sim.data10) (results Sim.measured).
Proof.
  split; [vm_compute; reflexivity|].
  destruct (measure_data_blocks Sim.connected_driver Sim.measured
              example_data Sim.data10) as (_ & H10 & Hex);
    [vm_compute; reflexivity..|].
  destruct (Hex eq_refl) as (le & y & Hle & Hy & HLe & HY & HT & _ & HD).
  vm_compute in Hle, Hy. injection Hle as <-. injection Hy as <-.
  repeat (split; [assumption|]). assumption.
Defined.

Lemma measure_spectrum_witness :
  exists rows,
    results Sim.measured !! "spectrum" = Some (VSpectrum rows)
    /\ length rows = 150%nat
    /\ rows.*1 = seqZ 380 150
    /\ forall i tok,
         mjoin (split comma <$> replicate 15 Sim.sweep) !! i = Some tok ->
         exists v, float (strip tok) = Some v
                   /\ rows !! i = Some (380 + Z.of_nat i, v).
Proof.
  apply (measure_spectrum Sim.connected_driver Sim.measured (replicate 15 Sim.sweep));
    [vm_compute; reflexivity|vm_compute; reflexivity|].
  apply Forall_replicate. vm_compute. reflexivity.
Defined.

Lemma measure_result_keys_witness :
  dom (results Sim.measured) = list_to_set all_keys
  /\ size (results Sim.measured) = 23%nat.
Proof.
  destruct (measure_result_keys Sim.connected_driver Sim.measured)
    as (_ & _ & Hr); [vm_compute; reflexivity|].
  apply Hr, connected_driver_reachable.
Defined.

Lemma measure_result_keys_counterexample :
  reachable Sim.connected_driver
  /\ measure Sim.connected_driver = Ret tt Sim.measured
  /\ size (results Sim.measured) = 23%nat
  /\ size (results Sim.measured) <> (21 + 1)%nat.
Proof.
  split; [apply connected_driver_reachable|].
  split; [vm_compute; reflexivity|]. split; [vm_compute; reflexivity|].
  vm_compute. discriminate.
Qed.

Lemma set_remote_idempotent_witness :
  set_remote true Sim.connected_driver = Ret tt Sim.remote_on
  /\ set_remote true Sim.remote_on = Ret tt Sim.remote_on
  /\ writes (wire Sim.remote_on)
     = writes (wire Sim.connected_driver) ++ ["RMT,1" +:+ LF]
  /\ set_remote false Sim.connected_driver = Ret tt Sim.connected_driver.
Proof.
  destruct (set_remote_idempotent Sim.connected_driver) as [Hsame Hon].
  destruct (Hon Sim.remote_on) as (Hagain & _ & Hwrites);
    [vm_compute; reflexivity..|].
  split; [vm_compute; reflexivity|]. split; [exact Hagain|].
  split; [exact Hwrites|]. apply Hsame. vm_compute. reflexivity.
Defined.

Lemma remote_before_measurement_witness :
  Forall under_remote (wire Sim.measured)
  /\ disconnect Sim.measured = Ret tt Sim.disconnected
  /\ remote Sim.disconnected = false.
Proof.
  destruct (@remote_before_measurement Sim.dec _) as [Hw Hd].
  split; [|split].
  - apply Hw. exact (reachable_call Measure _ connected_driver_reachable).
  - vm_compute. reflexivity.
  - apply (Hd Sim.measured). vm_compute. reflexivity.
Defined.

Lemma disconnect_write_fails_witness :
  remote Sim.remote_driver = true
  /\ com_write ("RMT,0" +:+ LF) Sim.remote_driver
     = Raise SerialException Sim.failed_disconnect
  /\ disconnect Sim.remote_driver = Raise SerialException Sim.failed_disconnect
  /\ TransportError SerialException = true
  /\ com Sim.failed_disconnect = com Sim.remote_driver
  /\ connected Sim.failed_disconnect = connected Sim.remote_driver
  /\ remote Sim.failed_disconnect = true
  /\ results Sim.failed_disconnect = results Sim.remote_driver.
Proof.
  split; [vm_compute; reflexivity|]. split; [vm_compute; reflexivity|].
  apply disconnect_write_fails; vm_compute; reflexivity.
Defined.

Lemma disconnect_write_fails_counterexample :
  remote Sim.remote_driver = true
  /\ com_write ("RMT,0" +:+ LF) Sim.remote_driver
     = Raise SerialException Sim.failed_disconnect
  /\ disconnect Sim.remote_driver = Raise SerialException Sim.failed_disconnect
  /\ get_connected Sim.failed_disconnect = Ret true Sim.failed_disconnect
  /\ com Sim.failed_disconnect <> None.
Proof.
  split; [vm_compute; reflexivity|].
  split; [vm_compute; reflexivity|]. split; [vm_compute; reflexivity|].
  split; [vm_compute; reflexivity|]. vm_compute. discriminate.
Qed.


Lemma spectral_tokens_stripped_witness :
  all_space LF = true
  /\ (forall s : state Sim.dec,
        for_a_in (split comma (" 0.1 , 0.2" +:+ LF)) [] s
        = Ret [Sim.Dec 1 1; Sim.Dec 2 1] s)
  /\ Sim.strict ("0.2" +:+ LF) = None
  /\ (forall s : state Sim.dec,
        for_a_in (H := Sim.strict) (split comma ("0.1,0.2" +:+ LF)) [] s
        = Ret [Sim.Dec 1 1; Sim.Dec 2 1] s)
  /\ (forall spectrum (s : state Sim.dec),
        for_a_in (split comma ("0.1,0.2" +:+ LF)) spectrum s
        = for_a_in (split comma "0.1,0.2") spectrum s)
  /\ last (split comma ("0.1,0.2" +:+ LF)) = Some ("0.2" +:+ LF)
  /\ (exists vs,
        results Sim.measured !! "spectrum" = Some (VSpectrum (transpose vs))
        /\ last (split comma Sim.sweep) = Some ("0.9" +:+ LF)
        /\ vs !! 9%nat = Some (Sim.Dec 9 1))
  /\ results Sim.measured !! "T10" = Some (VStr ("5000" +:+ LF))
  /\ results Sim.measured !! "Duv10" = Some (VStr "0.25").
Proof.
  destruct (@spectral_tokens_stripped Sim.dec _)
    as (Hparse & _ & Hstrip & Hspec & Hraw).
  destruct (@spectral_tokens_stripped Sim.dec Sim.strict) as (Hstrict & _).
  destruct (Hstrip "0.1,0.2" LF eq_refl) as (Hin & _ & Hlast).
  destruct (Hraw Sim.connected_driver Sim.measured example_data Sim.data10)
    as (_ & _ & HT & HD); [vm_compute; reflexivity..|].
  destruct (Hspec Sim.connected_driver Sim.measured (replicate 15 Sim.sweep))
    as (vs & Hvs & Hsp); [vm_compute; reflexivity..|].
  split; [reflexivity|].
  split; [intros s; rewrite Hparse; reflexivity|].
  split; [reflexivity|].
  split; [intros s; rewrite Hstrict; reflexivity|].
  split; [exact Hin|]. split; [exact Hlast|].
  split; [|split; [exact HT|exact HD]].
  exists vs. split; [exact Hsp|]. split; [reflexivity|].
  vm_compute in Hvs. injection Hvs as <-. reflexivity.
Defined.

(** ** Runs for the further properties *)

Lemma measure_well_formed_returns_witness :
  exists s', measure Sim.connected_driver = Ret tt s'.
Proof.
  apply (measure_well_formed_returns Sim.connected_driver [Sim.ok]
           Sim.ok Sim.ok Sim.ok example_data Sim.ok Sim.data10 Sim.ok
           (replicate 15 Sim.sweep)).
  - reflexivity.
  - reflexivity.
  - exact connected_driver_fed.
  - exact example_data_well_formed.
  - exact data10_well_formed.
  - exact sweeps_well_formed.
Defined.

Lemma measure_overwrites_witness :
  exists new : gmap string (value Sim.dec),
    dom new = list_to_set all_keys
    /\ results Sim.measured = new ∪ results Sim.connected_driver
    /\ forall r,
         measure (set_results r Sim.connected_driver)
         = Ret tt (set_results (new ∪ r) Sim.measured)
         /\ (dom r ⊆ list_to_set all_keys -> new ∪ r = new).
Proof.
  apply (measure_overwrites Sim.connected_driver Sim.measured).
  vm_compute. reflexivity.
Defined.

Lemma twice_driver_fed :
  feeding (([Sim.ok] ++ [Sim.ok; Sim.ok; Sim.ok; example_data; Sim.ok; Sim.data10; Sim.ok]
            ++ replicate 15 Sim.sweep)
           ++ [Sim.ok; Sim.ok; Sim.ok; example_data; Sim.ok; Sim.data10; Sim.ok]
           ++ replicate 15 Sim.sweep)
          ((acks (remote Sim.twice_driver) + 21) + 21) Sim.twice_driver.
Proof.
  split; [by eexists _, _|]. split.
  - exists []. vm_compute. reflexivity.
  - exists (replicate 21 true). vm_compute. reflexivity.
Defined.

Lemma measure_twice_witness :
  exists s1 s2 vs new,
    measure Sim.twice_driver = Ret tt s1 /\ measure s1 = Ret tt s2
    /\ stored_block "2" (split comma example_data) (results s2)
    /\ stored_block "10" (split comma Sim.data10) (results s2)
    /\ intensities (mjoin (split comma <$> replicate 15 Sim.sweep)) = Some vs
    /\ results s2 !! "spectrum" = Some (VSpectrum (transpose vs))
    /\ dom (results s2) = dom (results s1)
    /\ wire s2 = wire s1 ++ new /\ ev <$> new = measurement_protocol.
Proof.
  apply (measure_twice Sim.twice_driver [Sim.ok]
           Sim.ok Sim.ok Sim.ok example_data Sim.ok Sim.data10 Sim.ok
           (replicate 15 Sim.sweep)
           Sim.ok Sim.ok Sim.ok example_data Sim.ok Sim.data10 Sim.ok
           (replicate 15 Sim.sweep)).
  - reflexivity.
  - reflexivity.
  - reflexivity.
  - exact twice_driver_fed.
  - exact example_data_well_formed.
  - exact data10_well_formed.
  - exact example_data_well_formed.
  - exact data10_well_formed.
  - exact sweeps_well_formed.
  - exact sweeps_well_formed.
Defined.

Lemma measure_spectrum_rows_witness :
  exists rows,
    results Sim.measured !! "spectrum" = Some (VSpectrum rows)
    /\ length rows = length (mjoin (split comma <$> replicate 15 Sim.sweep))
    /\ (15 <= length rows)%nat
    /\ rows.*1 = seqZ 380 (Z.of_nat (length rows)).
Proof.
  apply (measure_spectrum_rows Sim.connected_driver Sim.measured
           (replicate 15 Sim.sweep)); vm_compute; reflexivity.
Defined.

Lemma measure_without_port_witness :
  no_port Sim.disconnected = Some AttributeError
  /\ measure Sim.disconnected = Raise AttributeError Sim.disconnected
  /\ no_port Sim.remote_off = Some SerialException
  /\ measure Sim.remote_off = Raise SerialException Sim.remote_off
  /\ set_remote true Sim.remote_off = Raise SerialException Sim.remote_off.
Proof.
  destruct (measure_without_port Sim.disconnected AttributeError) as (Hm & _);
    [vm_compute; reflexivity|].
  destruct (measure_without_port Sim.remote_off SerialException) as (Hm' & Hs' & _);
    [vm_compute; reflexivity|].
  split; [vm_compute; reflexivity|]. split; [exact Hm|].
  split; [vm_compute; reflexivity|]. split; [exact Hm'|].
  apply Hs'. vm_compute. reflexivity.
Defined.

Lemma measure_attribute_error_witness :
  measure Sim.disconnected = Raise AttributeError Sim.disconnected
  /\ measure Sim.cut_driver = Raise SerialException Sim.cut_state
  /\ SerialException <> AttributeError.
Proof.
  destruct (measure_attribute_error Sim.disconnected) as [Hno _].
  destruct (measure_attribute_error Sim.cut_driver) as [_ Hyes].
  split; [apply Hno; vm_compute; reflexivity|].
  split; [vm_compute; reflexivity|].
  apply (Hyes ltac:(vm_compute; reflexivity) SerialException Sim.cut_state).
  vm_compute. reflexivity.
Defined.

Lemma measure_keeps_remote_on_witness :
  remote Sim.remote_on = true
  /\ remote (state_of (measure Sim.remote_on)) = true
  /\ remote (state_of (measure Sim.connected_driver)) = true
  /\ com (state_of (measure Sim.cut_driver)) = com Sim.cut_driver.
Proof.
  destruct (measure_keeps_remote_on Sim.remote_on) as (Hon & _ & _).
  destruct (measure_keeps_remote_on Sim.connected_driver) as (_ & Hret & _).
  destruct (measure_keeps_remote_on Sim.cut_driver) as (_ & _ & Hcom).
  split; [vm_compute; reflexivity|].
  split; [apply Hon; vm_compute; reflexivity|].
  split; [apply Hret; vm_compute; reflexivity|exact Hcom].
Defined.

Lemma remote_needs_open_port_witness :
  remote Sim.measured = true
  /\ exists p b, com Sim.measured = Some (Opened p b).
Proof.
  split; [vm_compute; reflexivity|].
  apply remote_needs_open_port; [|vm_compute; reflexivity].
  exact (reachable_call Measure _ connected_driver_reachable).
Defined.

Lemma set_remote_on_reply_lost_witness :
  (exists s1, set_remote true Sim.silent_driver = Hang s1
     /\ remote s1 = false
     /\ wire s1 = [Entry (EvWrite ("RMT,1" +:+ LF)) false])
  /\ (exists s1 s2,
        set_remote true Sim.lossy_driver = Raise SerialException s1
        /\ remote s1 = false
        /\ set_remote true s1 = Ret tt s2
        /\ remote s2 = true
        /\ writes (wire s2) = ["RMT,1" +:+ LF; "RMT,1" +:+ LF]).
Proof.
  split.
  - destruct (set_remote_on_reply_lost Sim.silent_driver "COM1" 19200 [true])
      as (s1 & Hr & _ & _ & _ & Hw & Hhang & _); [vm_compute; reflexivity..|].
    exists s1. split; [apply Hhang; vm_compute; reflexivity|].
    split; [exact Hr|exact Hw].
  - destruct (set_remote_on_reply_lost Sim.lossy_driver "COM1" 19200 [true])
      as (s1 & Hr & _ & _ & _ & _ & _ & Hfail); [vm_compute; reflexivity..|].
    destruct (Hfail [Some Sim.ok]) as (Hraise & Hagain); [vm_compute; reflexivity|].
    destruct (Hagain [] Sim.ok [] eq_refl eq_refl) as (s2 & Hret & Hr2 & Hw2).
    exists (set_rx [Some Sim.ok] s1), s2.
    split; [exact Hraise|]. split; [exact Hr|]. split; [exact Hret|].
    split; [exact Hr2|exact Hw2].
Defined.

Lemma set_remote_off_returns_witness :
  set_remote false Sim.remote_on = Ret tt Sim.remote_off
  /\ wire Sim.remote_off
     = wire Sim.remote_on ++ [Entry (EvWrite ("RMT,0" +:+ LF)) true]
  /\ rx Sim.remote_off = rx Sim.remote_on
  /\ tx Sim.remote_on = true :: tx Sim.remote_off
  /\ remote Sim.remote_off = false /\ com Sim.remote_off = Some Unopened
  /\ results Sim.remote_off = results Sim.remote_on
  /\ ports Sim.remote_off = ports Sim.remote_on.
Proof.
  split; [vm_compute; reflexivity|].
  apply set_remote_off_returns; vm_compute; reflexivity.
Defined.

Lemma connect_returns_witness :
  connect "COM1" 19200 Sim.remote_on = Ret tt Sim.reconnected
  /\ com Sim.reconnected = Some (Opened "COM1" 19200)
  /\ remote Sim.reconnected = false
  /\ ("COM1" ∈ ports Sim.remote_on)
  /\ results Sim.reconnected = results Sim.remote_on
  /\ rx Sim.reconnected = rx Sim.remote_on
  /\ wire Sim.reconnected
     = wire Sim.remote_on
       ++ (if remote Sim.remote_on then [Entry (EvWrite ("RMT,0" +:+ LF)) true]
           else []).
Proof.
  split; [vm_compute; reflexivity|].
  apply (connect_returns "COM1" 19200). vm_compute. reflexivity.
Defined.

Lemma connect_port_fails_witness :
  ("COM9" ∉ ports Sim.remote_on)
  /\ returns (connect "COM9" 19200 Sim.remote_on) = false
  /\ connect "COM9" 19200 Sim.remote_on = Raise SerialException Sim.remote_off
  /\ connect "COM1" (-1) Sim.remote_on = Raise ValueError Sim.remote_off
  /\ connect "COM1" (-1) Sim.connected_driver
     = Raise ValueError Sim.connected_driver
  /\ com Sim.remote_off = Some Unopened /\ connected Sim.remote_off = true
  /\ remote Sim.remote_off = false.
Proof.
  assert (Hp : "COM9" ∉ ports Sim.remote_on).
  { intros Hin. vm_compute in Hin. apply list_elem_of_singleton in Hin.
    discriminate Hin. }
  destruct (connect_port_fails "COM9" 19200 Sim.remote_on SerialException)
    as (Hret & _ & Hon); [right; split; [lia|by split]|].
  destruct (connect_port_fails "COM1" (-1) Sim.remote_on ValueError)
    as (_ & _ & Hneg); [left; split; [lia|done]|].
  destruct (connect_port_fails "COM1" (-1) Sim.connected_driver ValueError)
    as (_ & Hoff & _); [left; split; [lia|done]|].
  destruct (Hon Sim.remote_off) as (Hc & Hrest); [vm_compute; reflexivity..|].
  destruct (Hneg Sim.remote_off) as (Hc' & _); [vm_compute; reflexivity..|].
  split; [exact Hp|]. split; [exact Hret|]. split; [exact Hc|].
  split; [exact Hc'|]. split; [apply Hoff; vm_compute; reflexivity|exact Hrest].
Defined.

Lemma results_only_by_measure_witness :
  results Sim.connected_driver = ∅
  /\ results (state_of (run Disconnect Sim.measured)) = results Sim.measured.
Proof.
  destruct (@results_only_by_measure Sim.dec _) as [Hinit Hrun].
  split.
  - apply (Hinit (Some "COM1") 19200 (Sim.line_of Sim.replies (replicate 64 true))).
    vm_compute. reflexivity.
  - apply Hrun. discriminate.
Defined.

Lemma disconnect_then_witness :
  disconnect Sim.measured = Ret tt Sim.disconnected
  /\ disconnect Sim.disconnected = Ret tt Sim.disconnected
  /\ set_remote false Sim.disconnected = Ret tt Sim.disconnected
  /\ set_remote true Sim.disconnected = Raise AttributeError Sim.disconnected
  /\ measure Sim.disconnected = Raise AttributeError Sim.disconnected
  /\ results Sim.disconnected = results Sim.measured.
Proof.
  split; [vm_compute; reflexivity|].
  apply disconnect_then. vm_compute. reflexivity.
Defined.

Lemma split_concat_witness :
  split comma "380.5" = ["380.5"]
  /\ String.concat "," (split comma "1,,2,") = "1,,2,"
  /\ split comma "1,,2," = ["1"; ""; "2"; ""].
Proof.
  destruct (split_concat comma "380.5") as (_ & _ & Hone).
  destruct (split_concat comma "1,,2,") as (Hcat & _ & _).
  split; [apply Hone; reflexivity|]. split; [exact Hcat|reflexivity].
Defined.

Lemma strip_spec_witness :
  strip (" 0.5" +:+ LF) = "0.5"
  /\ exists l r,
       all_space l = true /\ all_space r = true
       /\ " 0.5" +:+ LF = l +:+ strip (" 0.5" +:+ LF) +:+ r
       /\ (forall c t, strip (" 0.5" +:+ LF) = String c t -> is_space c = false)
       /\ (forall c, last_char (strip (" 0.5" +:+ LF)) = Some c -> is_space c = false).
Proof.
  split; [reflexivity|]. apply (strip_spec (" 0.5" +:+ LF)).
Defined.
